(** * law.target.collection: threshold existence of target collections

    A shallow embedding of [src/law/target/collection.py]: the classes
    [TargetCollection] and [SiblingFileCollection], their constructors and
    their [exists], [count], [hash], [remove], [keys] and [_abs_threshold]
    methods, together with the properties the specification states about
    them.

    Numbers.  Python's [len] and the running counters are integers ([Z]).
    The threshold is a Python number; it is modelled as a rational ([Q]),
    compared with [Qeq_bool], [Qle_bool] and their strict companion, so a
    fractional absolute threshold such as [3 * 0.5] is kept as it is.

    Effects.  Every call that touches storage ([target.exists()],
    [target.remove()], [dir.exists()], [dir.listdir()]) is a computation in
    the monad [M]: it reads the storage of the current [world], appends an
    [event] to its log and either returns a value or raises. *)

From Stdlib Require Import List String ZArith QArith Qminmax Bool Lia.
From Stdlib Require Import Permutation.
Import ListNotations.

Set Implicit Arguments.
Set Warnings "-register-all".

Local Open Scope Z_scope.

(** ** Python values the collections are built from *)

(** Identity of a storage handle (a plain target or a file). *)
Definition handle := nat.

(** A directory, named by its path. *)
Definition dirname := string.

(** A slot key: an index of a sequence or a key of a dict. *)
Inductive key : Type :=
| KInt (i : Z)
| KStr (s : string).

Definition key_eqb (a b : key) : bool :=
  match a, b with
  | KInt i, KInt j => Z.eqb i j
  | KStr s, KStr t => String.eqb s t
  | _, _ => false
  end.

(** The exceptions the modelled code can meet. *)
Inductive exn : Type :=
| TypeError
| IndexError
| AttributeError
| OSError (h : handle)
| IOError (d : dirname).

Inductive result (A : Type) : Type :=
| Ok (a : A)
| Raise (e : exn).

Arguments Ok {A} a.
Arguments Raise {A} e.

Inductive seq_kind : Type := KindList | KindTuple.

(** A (possibly nested) structure of targets of type [T]: a target, a list
    or tuple, or a dict in insertion order. *)
Inductive pyobj (T : Type) : Type :=
| PTarget (t : T)
| PSeq (k : seq_kind) (xs : list (pyobj T))
| PDict (kvs : list (key * pyobj T)).

Arguments PTarget {T} t.
Arguments PSeq {T} k xs.
Arguments PDict {T} kvs.

(** What the constructor receives as [targets]: a generator (the elements
    it will yield) or any other object. *)
Inductive init_arg (T : Type) : Type :=
| FromGenerator (xs : list (pyobj T))
| FromObject (o : pyobj T).

Arguments FromGenerator {T} xs.
Arguments FromObject {T} o.

(** The value of [self.targets] once the constructor accepted it: a list, a
    tuple or a dict. *)
Inductive structure (T : Type) : Type :=
| SSeq (k : seq_kind) (xs : list (pyobj T))
| SDict (kvs : list (key * pyobj T)).

Arguments SSeq {T} k xs.
Arguments SDict {T} kvs.

(** The value of [self._flat_targets]: the same class as [self.targets],
    every slot replaced by its flat list of targets. *)
Inductive flat (T : Type) : Type :=
| FSeq (k : seq_kind) (xs : list (list T))
| FDict (kvs : list (key * list T)).

Arguments FSeq {T} k xs.
Arguments FDict {T} kvs.

(** Modelled from the spec: [law.util.flatten], which the module imports
    and which lies outside [law/target/collection.py].  Section 3 of the
    specification: the flattened value is "the ordered list of leaf handles
    obtained by recursively unfolding any nested sequence, mapping";
    "duplicates and order are preserved".  A collection object met inside
    the structure stays one element of the result, as
    [SiblingFileCollection.__init__] and the scans of
    [SiblingFileCollection] find collections among the flat targets. *)
Fixpoint flatten {T : Type} (o : pyobj T) : list T :=
  match o with
  | PTarget t => [t]
  | PSeq _ xs => flat_map flatten xs
  | PDict kvs => flat_map (fun kv => flatten (snd kv)) kvs
  end.

Definition flatten_structure {T : Type} (s : structure T) : list T :=
  match s with
  | SSeq k xs => flatten (PSeq k xs)
  | SDict kvs => flatten (PDict kvs)
  end.

(** ** The objects *)

(** Attributes of a [TargetCollection] instance. *)
Record target_collection (T : Type) : Type := MkTargetCollection {
  targets : structure T;
  threshold : Q;
  _flat_targets : flat T;
  _flat_target_list : list T
}.

(** Attributes of a [SiblingFileCollection] instance over targets [T]. *)
Record sibling_of (T : Type) : Type := MkSibling {
  base : target_collection T;
  dir : dirname
}.

(** The targets this development distinguishes: any target known only
    through the Target interface, a [FileSystemTarget] (with its [parent]
    directory and its [basename]), and a [SiblingFileCollection]. *)
Inductive target : Type :=
| Target (h : handle)
| FileSystemTarget (h : handle) (parent : dirname) (basename : string)
| Sibling (s : sibling_of target).

Definition sibling_file_collection : Type := sibling_of target.

(** ** Storage, events and the monad of effects *)

Inductive event : Type :=
| EvExists (h : handle)
| EvRemove (h : handle) (silent : bool)
| EvDirExists (d : dirname)
| EvListdir (d : dirname).

(** The storage behind the handles: what each external call answers. *)
Record storage : Type := MkStorage {
  st_exists : handle -> result bool;
  st_remove_fails : handle -> bool;
  st_dir_exists : dirname -> result bool;
  st_listdir : dirname -> result (list string)
}.

Record world : Type := MkWorld {
  store : storage;
  log : list event
}.

Definition M (A : Type) : Type := world -> result A * world.

Definition ret {A : Type} (a : A) : M A := fun w => (Ok a, w).

Definition raise {A : Type} (e : exn) : M A := fun w => (Raise e, w).

Definition bind {A B : Type} (m : M A) (f : A -> M B) : M B :=
  fun w =>
    match m w with
    | (Ok a, w') => f a w'
    | (Raise e, w') => (Raise e, w')
    end.

Declare Scope monad_scope.
Delimit Scope monad_scope with monad.
Notation "x <- m ;; k" := (bind m (fun x => k))
  (at level 61, m at next level, right associativity) : monad_scope.
Notation "m ;;; k" := (bind m (fun _ => k))
  (at level 61, right associativity) : monad_scope.
Local Open Scope monad_scope.

Definition emit (e : event) : M unit :=
  fun w => (Ok tt, MkWorld (store w) (log w ++ [e])).

Definition lift {A : Type} (f : storage -> result A) : M A :=
  fun w => (f (store w), w).

(** [h.exists()] of a handle. *)
Definition handle_exists (h : handle) : M bool :=
  emit (EvExists h) ;;; lift (fun s => st_exists s h).

(** [d.exists()] of a directory. *)
Definition dir_exists (d : dirname) : M bool :=
  emit (EvDirExists d) ;;; lift (fun s => st_dir_exists s d).

(** [d.listdir()] of a directory. *)
Definition dir_listdir (d : dirname) : M (list string) :=
  emit (EvListdir d) ;;; lift (fun s => st_listdir s d).

Definition run {A : Type} (m : M A) (w : world) : result A := fst (m w).

Definition trace {A : Type} (m : M A) (w : world) : list event :=
  log (snd (m w)).

(** ** Numbers *)

Definition Qlt_bool (x y : Q) : bool := negb (Qle_bool y x).

(** Python's [min(a, b)] and [max(a, b)]: the first argument unless the
    second is strictly smaller (larger). *)
Definition py_min (a b : Q) : Q := if Qlt_bool b a then b else a.
Definition py_max (a b : Q) : Q := if Qlt_bool a b then b else a.

(** The two return shapes of [count]: [n], or [(n, keys)]. *)
Inductive count_result : Type :=
| CountN (n : Z)
| CountKeys (n : Z) (ks : list key).

(** [enumerate(xs)] *)
Fixpoint enumerate_from {A : Type} (i : Z) (xs : list A) : list (Z * A) :=
  match xs with
  | [] => []
  | x :: r => (i, x) :: enumerate_from (i + 1) r
  end.

Definition enumerate {A : Type} (xs : list A) : list (Z * A) :=
  enumerate_from 0 xs.

(** [list(range(n))] *)
Definition range (n : Z) : list Z := map Z.of_nat (seq 0 (Z.to_nat n)).

(** [k not in ks] *)
Definition key_in (k : key) (ks : list key) : bool := existsb (key_eqb k) ks.

(** ** TargetCollection *)

Module TargetCollection.
Section Methods.

(** The Target interface, as far as a collection uses it: the [exists()]
    and [remove(silent=...)] methods and the [hash] property of the wrapped
    targets of type [T]. *)
Variable T : Type.
Variable t_exists : T -> M bool.
Variable t_remove : T -> bool -> M unit.
Variable t_hash : T -> string.

(** [law.util.create_hash], imported from outside the module: any
    function from strings to strings. *)
Variable create_hash : string -> string.

Definition accept (arg : init_arg T) : result (structure T) :=
  match arg with
  | FromGenerator xs => Ok (SSeq KindList xs)
  | FromObject (PSeq k xs) => Ok (SSeq k xs)
  | FromObject (PDict kvs) => Ok (SDict kvs)
  | FromObject (PTarget _) => Raise TypeError
  end.

Definition __init__ (arg : init_arg T) (threshold : Q)
  : result (target_collection T) :=
  match accept arg with
  | Raise e => Raise e
  | Ok targets =>
      let flat_targets :=
        match targets with
        | SSeq k xs => FSeq k (map flatten xs)
        | SDict kvs => FDict (map (fun kv => (fst kv, flatten (snd kv))) kvs)
        end in
      Ok (MkTargetCollection targets threshold flat_targets
            (flatten_structure targets))
  end.

Definition __len__ (self : target_collection T) : Z :=
  match targets self with
  | SSeq _ xs => Z.of_nat (List.length xs)
  | SDict kvs => Z.of_nat (List.length kvs)
  end.

(** [_iter_flat(keys=False)] *)
Definition _iter_flat (self : target_collection T) : list (list T) :=
  match _flat_targets self with
  | FSeq _ xs => xs
  | FDict kvs => map snd kvs
  end.

(** [_iter_flat(keys=True)] *)
Definition _iter_flat_keys (self : target_collection T)
  : list (key * list T) :=
  match _flat_targets self with
  | FSeq _ xs => map (fun p => (KInt (fst p), snd p)) (enumerate xs)
  | FDict kvs => kvs
  end.

Definition keys (self : target_collection T) : list key :=
  match _flat_targets self with
  | FSeq _ _ => map KInt (range (__len__ self))
  | FDict kvs => map fst kvs
  end.

(** The [hash] property; [class_name] is [self.__class__.__name__]. *)
Definition hash_as (class_name : string) (self : target_collection T)
  : string :=
  let target_hashes :=
    String.concat EmptyString (map t_hash (_flat_target_list self)) in
  create_hash (class_name ++ target_hashes)%string.

Definition hash (self : target_collection T) : string :=
  hash_as "TargetCollection" self.

Fixpoint remove_loop (ts : list T) (silent : bool) : M unit :=
  match ts with
  | [] => ret tt
  | t :: r => t_remove t silent ;;; remove_loop r silent
  end.

Definition remove (self : target_collection T) (silent : bool) : M unit :=
  remove_loop (_flat_target_list self) silent.

Definition _abs_threshold (self : target_collection T) : Q :=
  if Qlt_bool (threshold self) 0 then 0%Q
  else if Qle_bool (threshold self) 1 then
    (inject_Z (__len__ self) * threshold self)%Q
  else py_min (inject_Z (__len__ self)) (py_max (threshold self) 0).

(** [all(t.exists() for t in targets)]: stops at the first target that
    reports false. *)
Fixpoint all_exist (ts : list T) : M bool :=
  match ts with
  | [] => ret true
  | t :: r => b <- t_exists t ;; if b then all_exist r else ret false
  end.

(** The loop of [exists]: [slots] are the slots still to visit, [i] the
    index of the first of them, [n] the running count. *)
Fixpoint exists_loop (threshold : Q) (len : Z) (i n : Z)
  (slots : list (list T)) : M bool :=
  match slots with
  | [] => ret false
  | targets :: rest =>
      b <- all_exist targets ;;
      let n' := if b then n + 1 else n in
      if b && Qle_bool threshold (inject_Z n') then ret true
      else if Qlt_bool (inject_Z (n' + (len - i - 1))) threshold
      then ret false
      else exists_loop threshold len (i + 1) n' rest
  end.

Definition exists_ (self : target_collection T) : M bool :=
  let threshold := _abs_threshold self in
  if Qeq_bool threshold 0 then ret true
  else exists_loop threshold (__len__ self) 0 0 (_iter_flat self).

(** The loop of [count]: returns [n] and [existing_keys]. *)
Fixpoint count_loop (n : Z) (existing_keys : list key)
  (slots : list (key * list T)) : M (Z * list key) :=
  match slots with
  | [] => ret (n, existing_keys)
  | (key, targets) :: rest =>
      b <- all_exist targets ;;
      if b then count_loop (n + 1) (existing_keys ++ [key]) rest
      else count_loop n existing_keys rest
  end.

(** The tail of [count], shared with [SiblingFileCollection.count]. *)
Definition count_report (self : target_collection T) (existing keys_ : bool)
  (n : Z) (existing_keys : list key) : count_result :=
  if existing then
    if negb keys_ then CountN n else CountKeys n existing_keys
  else
    let n := __len__ self - n in
    let missing_keys :=
      filter (fun key => negb (key_in key existing_keys)) (keys self) in
    if negb keys_ then CountN n else CountKeys n missing_keys.

Definition count (self : target_collection T) (existing keys_ : bool)
  : M count_result :=
  r <- count_loop 0 [] (_iter_flat_keys self) ;;
  ret (count_report self existing keys_ (fst r) (snd r)).

End Methods.
End TargetCollection.

(** ** Plain handles *)

Definition forget (h : handle) (s : storage) : storage :=
  MkStorage
    (fun h' => if Nat.eqb h' h then Ok false else st_exists s h')
    (st_remove_fails s) (st_dir_exists s) (st_listdir s).

(** Whether the resource behind a handle is there: what [exists()] of the
    handle reports, an [exists()] that raises counting as not there. *)
Definition is_present (s : storage) (h : handle) : bool :=
  match st_exists s h with
  | Ok true => true
  | _ => false
  end.

(** Whether removing the resource behind a handle fails: it is already
    absent, or the storage refuses the removal. *)
Definition removal_fails (s : storage) (h : handle) : bool :=
  negb (is_present s h) || st_remove_fails s h.

(** Modelled from the spec: [Target.remove] of the wrapped targets
    ([law.target.base], [law.target.file]), which lies outside
    [law/target/collection.py].  Section 7 of the specification: "a leaf's
    [remove] fails; [silent=true] discards it (treated as already absent),
    [silent=false] propagates" the error; section 8 names the failure: the
    "leaf's backing resource is already absent".  A removal that does not
    fail leaves the resource absent, so removing it once more fails. *)
Definition handle_remove (h : handle) (silent : bool) : M unit :=
  emit (EvRemove h silent) ;;;
  fun w =>
    if removal_fails (store w) h then
      if silent then (Ok tt, w) else (Raise (OSError h), w)
    else (Ok tt, MkWorld (forget h (store w)) (log w)).

(** [basename not in basenames] *)
Definition basename_in (b : string) (basenames : list string) : bool :=
  existsb (String.eqb b) basenames.

(** ** SiblingFileCollection *)

(** The scans of [SiblingFileCollection.exists] and [count], over the
    method [nested_exists] that [target.exists(basenames=basenames)]
    dispatches to. *)
Section SiblingScan.

Variable nested_exists : target -> list string -> M bool.
Variable basenames : list string.

(** The inner [for target in targets: ... break ... else:] loop: true when
    the [else] branch is reached. *)
Fixpoint slot_present (ts : list target) : M bool :=
  match ts with
  | [] => ret true
  | t :: r =>
      match t with
      | FileSystemTarget _ _ b =>
          if negb (basename_in b basenames) then ret false
          else slot_present r
      | _ =>
          e <- nested_exists t basenames ;;
          if negb e then ret false else slot_present r
      end
  end.

Variable A : Type.
Variable slot_targets : A -> list target.

(** The loop of [SiblingFileCollection.exists] over the slots [slots],
    each giving its targets through [slot_targets]. *)
Fixpoint sibling_exists_loop (threshold : Q) (len : Z) (i n : Z)
  (slots : list A) : M bool :=
  match slots with
  | [] => ret false
  | x :: rest =>
      b <- slot_present (slot_targets x) ;;
      let n' := if b then n + 1 else n in
      if Qle_bool threshold (inject_Z n') then ret true
      else if Qlt_bool (inject_Z (n' + (len - i - 1))) threshold
      then ret false
      else sibling_exists_loop threshold len (i + 1) n' rest
  end.

End SiblingScan.

Section Targets.

Variable create_hash : string -> string.

(** The [hash] property of a plain target or file, from its class. *)
Variable handle_hash : handle -> string.

(** [SiblingFileCollection.exists(basenames)], written over the class's
    own [_flat_targets] so that the call on a nested collection is
    structurally smaller; [sibling_exists_iter_flat] restates it over
    [_iter_flat]. *)
Definition sibling_exists (nested_exists : target -> list string -> M bool)
  (self : sibling_file_collection) (basenames : option (list string))
  : M bool :=
  let threshold := TargetCollection._abs_threshold (base self) in
  d <- dir_exists (dir self) ;;
  if negb d then ret false
  else if Qeq_bool threshold 0 then ret true
  else
    basenames <- match basenames with
                 | None => dir_listdir (dir self)
                 | Some b => ret b
                 end ;;
    let len := TargetCollection.__len__ (base self) in
    match _flat_targets (base self) with
    | FSeq _ xs =>
        sibling_exists_loop nested_exists basenames (fun x => x)
          threshold len 0 0 xs
    | FDict kvs =>
        sibling_exists_loop nested_exists basenames snd
          threshold len 0 0 kvs
    end.

(** [target.exists(basenames=...)]: the method of the target's class.
    [Target.exists] and [FileSystemTarget.exists] take no [basenames]. *)
Fixpoint target_exists (t : target) (basenames : option (list string))
  {struct t} : M bool :=
  match t with
  | Target h | FileSystemTarget h _ _ =>
      match basenames with
      | None => handle_exists h
      | Some _ => raise TypeError
      end
  | Sibling s =>
      sibling_exists (fun t' b => target_exists t' (Some b)) s basenames
  end.

(** [target.remove(silent=silent)]; a [SiblingFileCollection] inherits
    [TargetCollection.remove]. *)
Fixpoint target_remove (t : target) (silent : bool) {struct t} : M unit :=
  match t with
  | Target h | FileSystemTarget h _ _ => handle_remove h silent
  | Sibling s =>
      TargetCollection.remove (fun t' => target_remove t') (base s) silent
  end.

(** [target.hash]; a [SiblingFileCollection] inherits
    [TargetCollection.hash]. *)
Fixpoint target_hash (t : target) {struct t} : string :=
  match t with
  | Target h | FileSystemTarget h _ _ => handle_hash h
  | Sibling s =>
      TargetCollection.hash_as (fun t' => target_hash t') create_hash
        "SiblingFileCollection" (base s)
  end.

(** The loop of [SiblingFileCollection.count]: returns [n] and
    [existing_keys]. *)
Fixpoint sibling_count_loop (basenames : list string) (n : Z)
  (existing_keys : list key) (slots : list (key * list target))
  : M (Z * list key) :=
  match slots with
  | [] => ret (n, existing_keys)
  | (key, targets) :: rest =>
      b <- slot_present (fun t b => target_exists t (Some b)) basenames
             targets ;;
      if b then
        sibling_count_loop basenames (n + 1) (existing_keys ++ [key]) rest
      else sibling_count_loop basenames n existing_keys rest
  end.

End Targets.

Module SiblingFileCollection.
Section Methods.

Variable create_hash : string -> string.
Variable handle_hash : handle -> string.

(** [isinstance(target, (FileSystemTarget, SiblingFileCollection))] *)
Definition is_file_or_sibling (t : target) : bool :=
  match t with
  | Target _ => false
  | FileSystemTarget _ _ _ => true
  | Sibling _ => true
  end.

Definition __init__ (arg : init_arg target) (threshold : Q)
  : result sibling_file_collection :=
  match TargetCollection.__init__ arg threshold with
  | Raise e => Raise e
  | Ok self =>
      if negb (forallb is_file_or_sibling (_flat_target_list self))
      then Raise TypeError
      else
        match nth_error (_flat_target_list self) 0 with
        | None => Raise IndexError
        | Some first_target =>
            match first_target with
            | FileSystemTarget _ parent _ => Ok (MkSibling self parent)
            | Sibling s => Ok (MkSibling self (dir s))
            | Target _ => Raise AttributeError
            end
        end
  end.

Definition exists_ (self : sibling_file_collection)
  (basenames : option (list string)) : M bool :=
  target_exists (Sibling self) basenames.

Definition count (self : sibling_file_collection) (existing keys_ : bool)
  (basenames : option (list string)) : M count_result :=
  d <- dir_exists (dir self) ;;
  if negb d then
    if existing then
      ret (if negb keys_ then CountN 0 else CountKeys 0 [])
    else
      ret (if negb keys_ then CountN (TargetCollection.__len__ (base self))
           else CountKeys (TargetCollection.__len__ (base self))
                  (TargetCollection.keys (base self)))
  else
    basenames <- match basenames with
                 | None => dir_listdir (dir self)
                 | Some b => ret b
                 end ;;
    r <- sibling_count_loop basenames 0 []
           (TargetCollection._iter_flat_keys (base self)) ;;
    ret (TargetCollection.count_report (base self) existing keys_
           (fst r) (snd r)).

Definition hash (self : sibling_file_collection) : string :=
  target_hash create_hash handle_hash (Sibling self).

Definition remove (self : sibling_file_collection) (silent : bool)
  : M unit :=
  target_remove (Sibling self) silent.

End Methods.
End SiblingFileCollection.

(** ** Observations on computations *)

(** The event of asking a target itself whether it exists. *)
Definition is_target_probe (e : event) : bool :=
  match e with
  | EvExists _ => true
  | _ => false
  end.

(** A computation that leaves the storage as it is and asks no target
    whether it exists: it only adds events to the log, none of them a
    target probe. *)
Definition quiet {A : Type} (m : M A) : Prop :=
  forall w, exists evs,
    snd (m w) = MkWorld (store w) (log w ++ evs) /\
    Forall (fun e => is_target_probe e = false) evs.

(** The target [t] reports [b] in the storage [s]: in every world over [s],
    [t.exists()] returns [b] and leaves the storage as it is. *)
Definition reports {T : Type} (t_exists : T -> M bool) (s : storage)
  (t : T) (b : bool) : Prop :=
  forall w, store w = s ->
    exists w', t_exists t w = (Ok b, w') /\ store w' = s.

(** The number of slots among [slots] whose targets all report true. *)
Definition full_among {T : Type} (rep : T -> bool) (slots : list (list T))
  : Z :=
  Z.of_nat (List.length (filter (forallb rep) slots)).

(** The number of slots of a collection whose targets all report true. *)
Definition full_slots {T : Type} (rep : T -> bool) (c : target_collection T)
  : Z :=
  full_among rep (TargetCollection._iter_flat c).

(** After [k] slots of which [n] are complete, the outcome of [exists] is
    decided: the threshold is reached, or the [len - k] slots that are left
    cannot reach it any more. *)
Definition decided (threshold : Q) (len k n : Z) : bool :=
  Qle_bool threshold (inject_Z n)
  || Qlt_bool (inject_Z (n + (len - k))) threshold.

(** Asking the targets of the slots [slots], slot by slot, and nothing
    else. *)
Fixpoint scanned {T : Type} (t_exists : T -> M bool) (slots : list (list T))
  : M unit :=
  match slots with
  | [] => ret tt
  | l :: r => TargetCollection.all_exist t_exists l ;;; scanned t_exists r
  end.

(** The handles behind a target, in the order [remove] meets them. *)
Fixpoint handles_of (t : target) {struct t} : list handle :=
  match t with
  | Target h | FileSystemTarget h _ _ => [h]
  | Sibling s =>
      flat_map (fun t' => handles_of t') (_flat_target_list (base s))
  end.

(** ** Concrete targets, collections and storages *)

(** A storage in which every handle answers [ex], every directory answers
    [dex] and lists [names]. *)
Definition uniform_storage (ex : handle -> result bool)
  (dex : dirname -> result bool) (names : list string) : storage :=
  MkStorage ex (fun _ => false) dex (fun _ => Ok names).

Definition fresh (s : storage) : world := MkWorld s [].

(** Three files of the directory [/data], one per slot. *)
Definition abc_targets : list target :=
  [ FileSystemTarget 0%nat "/data"%string "a.txt"%string;
    FileSystemTarget 1%nat "/data"%string "b.txt"%string;
    FileSystemTarget 2%nat "/data"%string "c.txt"%string ].

Definition abc_arg : init_arg target :=
  FromObject (PSeq KindList (map PTarget abc_targets)).

Definition abc (threshold : Q) : sibling_file_collection :=
  MkSibling
    (MkTargetCollection (SSeq KindList (map PTarget abc_targets)) threshold
       (FSeq KindList (map (fun t => [t]) abc_targets)) abc_targets)
    "/data"%string.

(** A storage whose directories are all missing. *)
Definition no_directory : storage :=
  uniform_storage (fun _ => Ok true) (fun _ => Ok false) [].

(** Two groupings of the same three files, for [hash]. *)
Definition grouped_ab_c : init_arg target :=
  match abc_targets with
  | [a; b; c] =>
      FromObject (PSeq KindList
        [PSeq KindList [PTarget a; PTarget b]; PTarget c])
  | _ => FromObject (PSeq KindList [])
  end.

Definition grouped_a_bc : init_arg target :=
  match abc_targets with
  | [a; b; c] =>
      FromObject (PDict
        [(KStr "x"%string, PTarget a);
         (KStr "y"%string, PSeq KindTuple [PTarget b; PTarget c])])
  | _ => FromObject (PSeq KindList [])
  end.

(** Five plain targets, one per slot, handles 0 to 4. *)
Definition five_targets : list target :=
  map Target [0; 1; 2; 3; 4]%nat.

Definition five_arg : init_arg target :=
  FromObject (PSeq KindList (map PTarget five_targets)).

Definition five (threshold : Q) : target_collection target :=
  MkTargetCollection (SSeq KindList (map PTarget five_targets)) threshold
    (FSeq KindList (map (fun t => [t]) five_targets)) five_targets.

(** [t.exists()] on a target of this development. *)
Definition plain_exists (t : target) : M bool := target_exists t None.

(** Handles 0 and 1 exist, the others do not. *)
Definition first_two_exist : storage :=
  uniform_storage (fun h => Ok (Nat.leb h 1)) (fun _ => Ok true) [].

(** Handles 0 to 3 do not exist; asking any other handle raises. *)
Definition only_last_raises : storage :=
  uniform_storage
    (fun h => if Nat.ltb h 4 then Ok false else Raise (OSError h))
    (fun _ => Ok true) [].

(** The result of a constructor that succeeded. *)
Definition constructed {A : Type} (r : result A) : option A :=
  match r with
  | Ok a => Some a
  | Raise _ => None
  end.

(** The directory [/data] exists and lists [a.txt] and [c.txt]; asking any
    target itself raises. *)
Definition listing_a_c : storage :=
  MkStorage (fun h => Raise (OSError h)) (fun _ => false)
    (fun _ => Ok true) (fun _ => Ok ["a.txt"%string; "c.txt"]%string).

(** A sibling collection of the directory [/gone]; it is the second slot of
    a collection of [/data], after the file [a.txt]. *)
Definition gone_file : target :=
  FileSystemTarget 7%nat "/gone"%string "a.txt"%string.

Definition gone_child : sibling_file_collection :=
  MkSibling
    (MkTargetCollection
       (SSeq KindList [PTarget gone_file]) 1
       (FSeq KindList [[gone_file]]) [gone_file])
    "/gone"%string.

Definition parent_targets : list target :=
  [FileSystemTarget 0%nat "/data"%string "a.txt"%string; Sibling gone_child].

Definition parent_of_gone : sibling_file_collection :=
  MkSibling
    (MkTargetCollection
       (SSeq KindList (map PTarget parent_targets)) 1
       (FSeq KindList (map (fun t => [t]) parent_targets)) parent_targets)
    "/data"%string.

(** [/data] exists and lists [a.txt]; [/gone] does not exist. *)
Definition data_without_gone : storage :=
  MkStorage (fun _ => Ok true) (fun _ => false)
    (fun d => Ok (String.eqb d "/data"%string))
    (fun _ => Ok ["a.txt"%string]%string).

(** Handles 1 and 3 exist, the others do not. *)
Definition odd_exist : storage :=
  uniform_storage (fun h => Ok (Nat.odd h)) (fun _ => Ok true) [].

(** What each of the five targets reports in [odd_exist]. *)
Definition odd_report (t : target) : bool :=
  match t with
  | Target h => Nat.odd h
  | _ => false
  end.

(** Removing handle 1 fails; the other removals succeed. *)
Definition second_fails : storage :=
  MkStorage (fun _ => Ok true) (fun h => Nat.eqb h 1)
    (fun _ => Ok true) (fun _ => Ok []).

(** [remove] of the targets of this development, as a collection calls
    it. *)
Definition plain_remove (t : target) (silent : bool) : M unit :=
  target_remove t silent.

(** The storage after [remove(silent)] met the handles [hs]: a handle whose
    removal does not fail is gone. *)
Definition after_removals (hs : list handle) (s : storage) : storage :=
  fold_left (fun s h => if removal_fails s h then s else forget h s) hs s.

(** No removal among [hs] fails when they are removed in this order from
    the storage [s]. *)
Fixpoint all_removable (s : storage) (hs : list handle) : bool :=
  match hs with
  | [] => true
  | h :: r => negb (removal_fails s h) && all_removable (forget h s) r
  end.

(** A collection that holds the target 0 twice, then the target 1. *)
Definition twice_targets : list target :=
  [Target 0%nat; Target 0%nat; Target 1%nat].

Definition twice : target_collection target :=
  MkTargetCollection (SSeq KindList (map PTarget twice_targets)) 1
    (FSeq KindList (map (fun t => [t]) twice_targets)) twice_targets.

(** Every resource is there and no removal is refused. *)
Definition all_present : storage :=
  MkStorage (fun _ => Ok true) (fun _ => false)
    (fun _ => Ok true) (fun _ => Ok []).

(** The resource 0 is absent, the others are there. *)
Definition first_absent : storage :=
  MkStorage (fun h => Ok (negb (Nat.eqb h 0))) (fun _ => false)
    (fun _ => Ok true) (fun _ => Ok []).

(** The five targets again, as a tuple. *)
Definition five_tuple (threshold : Q) : target_collection target :=
  MkTargetCollection (SSeq KindTuple (map PTarget five_targets)) threshold
    (FSeq KindTuple (map (fun t => [t]) five_targets)) five_targets.

(** * law.parser: editing lists of command line arguments

    [add_cmdline_arg] and [remove_cmdline_arg] of [law/parser.py].  A list
    of arguments is a list of strings, and so are the values that come
    with an argument. *)

Module Parser.

(** [arg in args] *)
Definition arg_in (arg : string) (args : list string) : bool :=
  existsb (String.eqb arg) args.

(** [args.index(arg)], the position of the first occurrence; [None] where
    Python raises [ValueError]. *)
Fixpoint index (arg : string) (args : list string) : option nat :=
  match args with
  | [] => None
  | a :: r =>
      if String.eqb a arg then Some 0%nat else option_map S (index arg r)
  end.

Definition add_cmdline_arg (args : list string) (arg : string)
  (values : list string) : list string :=
  if negb (arg_in arg args) then args ++ [arg] ++ values else args.

(** [del args[idx:idx + max(n, 1)]] cuts the slice short at the end of the
    list. *)
Definition remove_cmdline_arg (args : list string) (arg : string) (n : Z)
  : list string :=
  if arg_in arg args then
    match index arg args with
    | Some idx =>
        firstn idx args ++ skipn (idx + Z.to_nat (Z.max n 1)) args
    | None => args
    end
  else args.

End Parser.

(** * law.target.collection: the other methods of [TargetCollection] *)

(** The errors of [self.targets[key]]: [IndexError] and [TypeError] of a
    list or tuple, [KeyError] of a dict. *)
Inductive lookup_error : Type :=
| LookupIndexError
| LookupKeyError (k : key)
| LookupTypeError.

Inductive access (A : Type) : Type :=
| Got (a : A)
| Fails (e : lookup_error).

Arguments Got {A} a.
Arguments Fails {A} e.

(** [xs[i]] of a list or tuple: a negative index counts from the end. *)
Definition seq_item {A : Type} (xs : list A) (i : Z) : access A :=
  let len := Z.of_nat (List.length xs) in
  let j := if i <? 0 then i + len else i in
  if (j <? 0) || (len <=? j) then Fails LookupIndexError
  else
    match nth_error xs (Z.to_nat j) with
    | Some x => Got x
    | None => Fails LookupIndexError
    end.

(** [d[k]] of a dict. *)
Definition dict_item {A : Type} (kvs : list (key * A)) (k : key) : access A :=
  match find (fun kv => key_eqb (fst kv) k) kvs with
  | Some kv => Got (snd kv)
  | None => Fails (LookupKeyError k)
  end.

Module TargetCollectionRest.
Section Methods.

Variable T : Type.
Variable t_exists : T -> M bool.

Definition __getitem__ (self : target_collection T) (k : key)
  : access (pyobj T) :=
  match targets self with
  | SSeq _ xs =>
      match k with
      | KInt i => seq_item xs i
      | KStr _ => Fails LookupTypeError
      end
  | SDict kvs => dict_item kvs k
  end.

(** [any(not t.exists() for t in targets)]: stops at the first target that
    reports false. *)
Fixpoint any_missing (ts : list T) : M bool :=
  match ts with
  | [] => ret false
  | t :: r => b <- t_exists t ;; if negb b then ret true else any_missing r
  end.

(** The slots a generator yields when it is run to its end: [keep] is the
    test of the [if] before [yield targets]. *)
Fixpoint yielded (keep : list T -> M bool) (slots : list (list T))
  : M (list (list T)) :=
  match slots with
  | [] => ret []
  | targets :: rest =>
      b <- keep targets ;;
      r <- yielded keep rest ;;
      ret (if b then targets :: r else r)
  end.

(** [list(self.iter_existing())] *)
Definition iter_existing (self : target_collection T) : M (list (list T)) :=
  yielded (TargetCollection.all_exist t_exists)
    (TargetCollection._iter_flat self).

(** [list(self.iter_missing())] *)
Definition iter_missing (self : target_collection T) : M (list (list T)) :=
  yielded any_missing (TargetCollection._iter_flat self).

End Methods.
End TargetCollectionRest.

(** The elements of [xs] whose flag in [mask] is [b]. *)
Fixpoint select {A : Type} (b : bool) (mask : list bool) (xs : list A)
  : list A :=
  match mask, xs with
  | m :: mask', x :: xs' =>
      if Bool.eqb m b then x :: select b mask' xs' else select b mask' xs'
  | _, _ => []
  end.

(** The raw items of [self.targets], in order: the elements of a list or
    tuple, the values of a dict. *)
Definition raw_items {T : Type} (self : target_collection T)
  : list (pyobj T) :=
  match targets self with
  | SSeq _ xs => xs
  | SDict kvs => map snd kvs
  end.

(** [random.choice(seq)]: [IndexError] for an empty sequence, else the
    element at the index drawn below [len(seq)]; [randbelow n] is the
    number the generator draws for [n]. *)
Definition choice {A : Type} (randbelow : Z -> Z) (xs : list A) : access A :=
  match xs with
  | [] => Fails LookupIndexError
  | _ :: _ => seq_item xs (randbelow (Z.of_nat (List.length xs)))
  end.

Definition random_target {T : Type} (randbelow : Z -> Z)
  (self : target_collection T) : access (pyobj T) :=
  match targets self with
  | SSeq _ xs => choice randbelow xs
  | SDict kvs => choice randbelow (map snd kvs)
  end.

(** A computation that leaves the storage as it is and only adds events to
    the log. *)
Definition appending {A : Type} (m : M A) : Prop :=
  forall w, exists evs, snd (m w) = MkWorld (store w) (log w ++ evs).

(** A file whose basename is in [basenames]. *)
Definition listed (basenames : list string) (t : target) : bool :=
  match t with
  | FileSystemTarget _ _ b => basename_in b basenames
  | _ => false
  end.

(** [isinstance(target, FileSystemTarget)] *)
Definition is_file (t : target) : bool :=
  match t with
  | FileSystemTarget _ _ _ => true
  | _ => false
  end.

(** The event of listing a directory. *)
Definition is_listing (e : event) : bool :=
  match e with
  | EvListdir _ => true
  | _ => false
  end.

(** A computation that leaves the storage as it is and lists no
    directory. *)
Definition lists_nothing {A : Type} (m : M A) : Prop :=
  forall w, exists evs,
    snd (m w) = MkWorld (store w) (log w ++ evs) /\
    Forall (fun e => is_listing e = false) evs.

(** The directory [/data] exists and lists [a.txt] and [c.txt]; the files
    0 and 2 exist and the file 1 does not. *)
Definition a_c_on_disk : storage :=
  MkStorage (fun h => Ok (negb (Nat.eqb h 1))) (fun _ => false)
    (fun _ => Ok true) (fun _ => Ok ["a.txt"%string; "c.txt"%string]).

(** A computation whose result and whose effect on the storage depend on
    the storage alone, not on the log. *)
Definition steady {A : Type} (m : M A) : Prop :=
  forall w w', store w = store w' ->
    fst (m w) = fst (m w') /\ store (snd (m w)) = store (snd (m w')).

(** A dict with the keys [x] and [y] over the files [a.txt] and [b.txt],
    and the empty dict, as collections. *)
Definition xy_collection : target_collection target :=
  MkTargetCollection
    (SDict [(KStr "x"%string,
             PTarget (FileSystemTarget 0%nat "/data"%string "a.txt"%string));
            (KStr "y"%string,
             PTarget (FileSystemTarget 1%nat "/data"%string "b.txt"%string))])
    1
    (FDict [(KStr "x"%string,
             [FileSystemTarget 0%nat "/data"%string "a.txt"%string]);
            (KStr "y"%string,
             [FileSystemTarget 1%nat "/data"%string "b.txt"%string])])
    [FileSystemTarget 0%nat "/data"%string "a.txt"%string;
     FileSystemTarget 1%nat "/data"%string "b.txt"%string].

Definition empty_collection : target_collection target :=
  MkTargetCollection (SDict []) 1 (FDict []) [].

(** * Properties *)

(** ** Induction on nested targets *)

Section TargetInduction.

Variable P : target -> Prop.
Hypothesis P_target : forall h, P (Target h).
Hypothesis P_file : forall h d b, P (FileSystemTarget h d b).
Hypothesis P_sibling : forall s,
  Forall (Forall P) (TargetCollection._iter_flat (base s)) ->
  Forall P (_flat_target_list (base s)) ->
  P (Sibling s).

Lemma target_nested_ind : forall t, P t.
Proof.
  fix IH 1. intros [h | h d b | s].
  - apply P_target.
  - apply P_file.
  - apply P_sibling.
    + destruct s as [[tg th ft fl] d].
      unfold TargetCollection._iter_flat; simpl.
      destruct ft as [k xs | kvs].
      * induction xs as [| l r IHr]; constructor; [| exact IHr].
        induction l as [| t l IHl]; constructor; [apply IH | exact IHl].
      * induction kvs as [| [k l] r IHr]; simpl; constructor; [| exact IHr].
        induction l as [| t l IHl]; constructor; [apply IH | exact IHl].
    + destruct s as [[tg th ft fl] d]; simpl.
      induction fl as [| t l IHl]; constructor; [apply IH | exact IHl].
Qed.

End TargetInduction.

(** ** Running computations *)

Lemma bind_ok {A B : Type} (m : M A) (f : A -> M B) w a w' :
  m w = (Ok a, w') -> bind m f w = f a w'.
Proof. intro H. unfold bind. now rewrite H. Qed.

Lemma bind_raise {A B : Type} (m : M A) (f : A -> M B) w e w' :
  m w = (Raise e, w') -> bind m f w = (Raise e, w').
Proof. intro H. unfold bind. now rewrite H. Qed.

Lemma dir_exists_run d w :
  dir_exists d w =
  (st_dir_exists (store w) d, MkWorld (store w) (log w ++ [EvDirExists d])).
Proof. reflexivity. Qed.

Lemma dir_exists_as d w r :
  st_dir_exists (store w) d = r ->
  dir_exists d w = (r, MkWorld (store w) (log w ++ [EvDirExists d])).
Proof. intros <-. reflexivity. Qed.

Lemma dir_listdir_as d w r :
  st_listdir (store w) d = r ->
  dir_listdir d w = (r, MkWorld (store w) (log w ++ [EvListdir d])).
Proof. intros <-. reflexivity. Qed.

Lemma dir_listdir_run d w :
  dir_listdir d w =
  (st_listdir (store w) d, MkWorld (store w) (log w ++ [EvListdir d])).
Proof. reflexivity. Qed.

Lemma handle_exists_run h w :
  handle_exists h w =
  (st_exists (store w) h, MkWorld (store w) (log w ++ [EvExists h])).
Proof. reflexivity. Qed.

(** ** Comparisons of rationals *)

Lemma Qlt_bool_iff (x y : Q) : Qlt_bool x y = true <-> (x < y)%Q.
Proof.
  unfold Qlt_bool. rewrite negb_true_iff.
  split; intro H.
  - apply Qnot_le_lt. intro L. apply Qle_bool_iff in L. congruence.
  - destruct (Qle_bool y x) eqn:E; [| reflexivity].
    apply Qle_bool_iff in E. exfalso. exact (Qlt_not_le _ _ H E).
Qed.

Lemma Qlt_bool_false_iff (x y : Q) : Qlt_bool x y = false <-> (y <= x)%Q.
Proof.
  unfold Qlt_bool. rewrite negb_false_iff. apply Qle_bool_iff.
Qed.

Lemma Qle_bool_false_iff (x y : Q) : Qle_bool x y = false <-> (y < x)%Q.
Proof.
  rewrite <- Qlt_bool_iff. unfold Qlt_bool.
  destruct (Qle_bool x y); simpl; split; congruence.
Qed.

(** ** The absolute threshold *)

(** C4.  [_abs_threshold] is a function of the configured threshold and of
    [len] alone: a negative threshold gives 0, a threshold in (0, 1] gives
    [len * threshold] as it is, without rounding, and a threshold above 1
    gives [min(len, max(threshold, 0))]. *)
Theorem abs_threshold_cases (T : Type) (self : target_collection T) :
  let len := inject_Z (TargetCollection.__len__ self) in
  ((threshold self < 0)%Q -> TargetCollection._abs_threshold self = 0%Q) /\
  ((0 < threshold self)%Q /\ (threshold self <= 1)%Q ->
     TargetCollection._abs_threshold self = (len * threshold self)%Q) /\
  ((1 < threshold self)%Q ->
     (TargetCollection._abs_threshold self ==
        Qmin len (Qmax (threshold self) 0))%Q) /\
  (forall other : target_collection T,
     threshold other = threshold self ->
     TargetCollection.__len__ other = TargetCollection.__len__ self ->
     TargetCollection._abs_threshold other =
     TargetCollection._abs_threshold self).
Proof.
  intro len. unfold TargetCollection._abs_threshold. repeat split.
  - intro H. apply Qlt_bool_iff in H. now rewrite H.
  - intros [H0 H1].
    assert (E : Qlt_bool (threshold self) 0 = false).
    { apply Qlt_bool_false_iff. now apply Qlt_le_weak. }
    rewrite E. apply Qle_bool_iff in H1. now rewrite H1.
  - intro H.
    assert (P : (0 <= threshold self)%Q).
    { apply Qlt_le_weak. eapply Qlt_trans; [| exact H]. reflexivity. }
    assert (E : Qlt_bool (threshold self) 0 = false).
    { now apply Qlt_bool_false_iff. }
    rewrite E. apply Qle_bool_false_iff in H. rewrite H.
    unfold py_max. rewrite E. fold len.
    rewrite (Q.max_l _ _ P).
    unfold py_min. destruct (Qlt_bool (threshold self) len) eqn:L.
    + apply Qlt_bool_iff in L. symmetry. apply Q.min_r. now apply Qlt_le_weak.
    + apply Qlt_bool_false_iff in L. symmetry. now apply Q.min_l.
  - intros other Ht Hl. now rewrite Ht, Hl.
Qed.

Lemma abs_threshold_cases_witness :
  TargetCollection._abs_threshold (five (-1)) = 0%Q /\
  TargetCollection._abs_threshold (five (1 # 2)) =
    (inject_Z 5 * (1 # 2))%Q /\
  (TargetCollection._abs_threshold (five 7) ==
     Qmin (inject_Z 5) (Qmax 7 0))%Q /\
  TargetCollection._abs_threshold (five_tuple (1 # 2)) =
    TargetCollection._abs_threshold (five (1 # 2)).
Proof.
  split; [| split; [| split]].
  - apply (proj1 (abs_threshold_cases (five (-1)))). reflexivity.
  - apply (proj1 (proj2 (abs_threshold_cases (five (1 # 2))))).
    split; [reflexivity | discriminate].
  - apply (proj1 (proj2 (proj2 (abs_threshold_cases (five 7))))).
    reflexivity.
  - apply (proj2 (proj2 (proj2 (abs_threshold_cases (five (1 # 2))))));
      reflexivity.
Defined.

(** ** [SiblingFileCollection.exists] over [_iter_flat] *)

Lemma sibling_exists_loop_map nested_exists basenames (A : Type)
  (slot_targets : A -> list target) threshold len slots :
  forall i n w,
    sibling_exists_loop nested_exists basenames slot_targets threshold len
      i n slots w =
    sibling_exists_loop nested_exists basenames (fun x => x) threshold len
      i n (map slot_targets slots) w.
Proof.
  induction slots as [| x rest IH]; intros i n w; simpl; [reflexivity |].
  unfold bind.
  destruct (slot_present nested_exists basenames (slot_targets x) w)
    as [[b | e] w1]; [| reflexivity].
  destruct (Qle_bool _ _); [reflexivity |].
  destruct (Qlt_bool _ _); [reflexivity |].
  apply IH.
Qed.

Lemma sibling_exists_iter_flat nested_exists
  (self : sibling_file_collection) basenames w :
  sibling_exists nested_exists self basenames w =
  (let threshold := TargetCollection._abs_threshold (base self) in
   d <- dir_exists (dir self) ;;
   if negb d then ret false
   else if Qeq_bool threshold 0 then ret true
   else
     bn <- match basenames with
           | None => dir_listdir (dir self)
           | Some b => ret b
           end ;;
     sibling_exists_loop nested_exists bn (fun x => x) threshold
       (TargetCollection.__len__ (base self)) 0 0
       (TargetCollection._iter_flat (base self))) w.
Proof.
  unfold sibling_exists, TargetCollection._iter_flat. simpl.
  unfold bind at 1 3.
  destruct (dir_exists (dir self) w) as [[d | e] w1]; [| reflexivity].
  destruct (negb d); [reflexivity |].
  destruct (Qeq_bool _ _); [reflexivity |].
  unfold bind.
  destruct (match basenames with
            | None => dir_listdir (dir self)
            | Some b => ret b
            end w1) as [[bn | e] w2]; [| reflexivity].
  destruct (_flat_targets (base self)) as [k xs | kvs]; [reflexivity |].
  apply sibling_exists_loop_map.
Qed.

(** ** A missing directory *)

Lemma sibling_exists_no_dir (s : sibling_file_collection) bn w :
  st_dir_exists (store w) (dir s) = Ok false ->
  SiblingFileCollection.exists_ s bn w =
  (Ok false, MkWorld (store w) (log w ++ [EvDirExists (dir s)])).
Proof.
  intro H. unfold SiblingFileCollection.exists_. simpl.
  unfold sibling_exists.
  erewrite bind_ok by (apply dir_exists_as; eassumption).
  reflexivity.
Qed.

Lemma sibling_count_no_dir (s : sibling_file_collection) existing keys_ bn w :
  st_dir_exists (store w) (dir s) = Ok false ->
  SiblingFileCollection.count s existing keys_ bn w =
  (Ok (if existing then
         if negb keys_ then CountN 0 else CountKeys 0 []
       else
         if negb keys_ then CountN (TargetCollection.__len__ (base s))
         else CountKeys (TargetCollection.__len__ (base s))
                (TargetCollection.keys (base s))),
   MkWorld (store w) (log w ++ [EvDirExists (dir s)])).
Proof.
  intro H. unfold SiblingFileCollection.count.
  erewrite bind_ok by (apply dir_exists_as; eassumption).
  simpl. now destruct existing.
Qed.

(** C2, as the code has it.  When the directory of a
    [SiblingFileCollection] does not exist, [exists] returns false right
    after the directory probe, whatever the threshold: the directory is
    checked before the trivial case of a zero absolute threshold. *)
Theorem sibling_exists_false_when_dir_missing
  (s : sibling_file_collection) (basenames : option (list string)) w :
  st_dir_exists (store w) (dir s) = Ok false ->
  run (SiblingFileCollection.exists_ s basenames) w = Ok false /\
  trace (SiblingFileCollection.exists_ s basenames) w =
    log w ++ [EvDirExists (dir s)].
Proof.
  intro H. unfold run, trace.
  now rewrite (sibling_exists_no_dir s basenames w H).
Qed.

Lemma sibling_exists_false_when_dir_missing_witness :
  run (SiblingFileCollection.exists_ (abc 0) None) (fresh no_directory)
    = Ok false /\
  trace (SiblingFileCollection.exists_ (abc 0) None) (fresh no_directory)
    = [] ++ [EvDirExists "/data"%string].
Proof.
  apply (sibling_exists_false_when_dir_missing (abc 0) None
           (fresh no_directory)).
  reflexivity.
Defined.

(** With a zero absolute threshold and a missing directory [exists] does
    return false: the exception the specification makes for a zero
    threshold does not hold. *)
Lemma sibling_exists_zero_threshold_counterexample :
  ~ (forall (s : sibling_file_collection) w,
       st_dir_exists (store w) (dir s) = Ok false ->
       Qeq_bool (TargetCollection._abs_threshold (base s)) 0 = true ->
       run (SiblingFileCollection.exists_ s None) w <> Ok false).
Proof.
  intro H.
  apply (H (abc 0) (fresh no_directory)); reflexivity.
Qed.

(** C5.  When the directory of a [SiblingFileCollection] does not exist,
    [count(existing=True, keys=True)] returns [(0, [])] and
    [count(existing=False, keys=True)] returns [(len(self), self.keys())];
    the only storage call made is the directory probe, no listing. *)
Theorem sibling_count_when_dir_missing
  (s : sibling_file_collection) (basenames : option (list string)) w :
  st_dir_exists (store w) (dir s) = Ok false ->
  run (SiblingFileCollection.count s true true basenames) w
    = Ok (CountKeys 0 []) /\
  run (SiblingFileCollection.count s false true basenames) w
    = Ok (CountKeys (TargetCollection.__len__ (base s))
            (TargetCollection.keys (base s))) /\
  (forall existing,
     trace (SiblingFileCollection.count s existing true basenames) w
       = log w ++ [EvDirExists (dir s)]).
Proof.
  intro H. unfold run, trace. repeat split.
  - now rewrite (sibling_count_no_dir s true true basenames w H).
  - now rewrite (sibling_count_no_dir s false true basenames w H).
  - intro existing.
    now rewrite (sibling_count_no_dir s existing true basenames w H).
Qed.

Lemma sibling_count_when_dir_missing_witness :
  run (SiblingFileCollection.count (abc 1) true true None)
    (fresh no_directory) = Ok (CountKeys 0 []) /\
  run (SiblingFileCollection.count (abc 1) false true None)
    (fresh no_directory) = Ok (CountKeys 3 [KInt 0; KInt 1; KInt 2]) /\
  trace (SiblingFileCollection.count (abc 1) false true None)
    (fresh no_directory) = [] ++ [EvDirExists "/data"%string].
Proof.
  destruct (sibling_count_when_dir_missing (abc 1) None
              (fresh no_directory)) as (A & B & C);
    [reflexivity |].
  split; [exact A |]. split; [exact B | exact (C false)].
Defined.

(** ** Construction *)

Lemma abc_constructed threshold :
  SiblingFileCollection.__init__ abc_arg threshold = Ok (abc threshold).
Proof. reflexivity. Qed.

(** C9.  Constructing a [SiblingFileCollection] from an empty list, tuple or
    dict raises [IndexError] at [self._flat_target_list[0]], while
    [TargetCollection] accepts the same argument; a [SiblingFileCollection]
    that was constructed has at least one flat target. *)
Theorem sibling_init_needs_a_target (threshold : Q) :
  (forall arg : init_arg target,
     In arg [FromObject (PSeq KindList []); FromObject (PSeq KindTuple []);
             FromObject (PDict [])] ->
     SiblingFileCollection.__init__ arg threshold = Raise IndexError /\
     exists c, TargetCollection.__init__ arg threshold = Ok c /\
               TargetCollection.__len__ c = 0) /\
  (forall arg s,
     SiblingFileCollection.__init__ arg threshold = Ok s ->
     _flat_target_list (base s) <> []).
Proof.
  split.
  - intros arg [<- | [<- | [<- | []]]]; (split; [reflexivity |]);
      eexists; split; reflexivity.
  - intros arg s. unfold SiblingFileCollection.__init__.
    destruct (TargetCollection.__init__ arg threshold) as [c | e];
      [| discriminate].
    destruct (negb (forallb SiblingFileCollection.is_file_or_sibling
                      (_flat_target_list c))); [discriminate |].
    destruct (_flat_target_list c) as [| t l] eqn:E; simpl; [discriminate |].
    destruct t; intro H; inversion H; subst; simpl; rewrite E; discriminate.
Qed.

Lemma sibling_init_needs_a_target_witness :
  (SiblingFileCollection.__init__ (FromObject (PDict [])) 1
     = Raise IndexError /\
   exists c, TargetCollection.__init__ (FromObject (@PDict target [])) 1
               = Ok c /\
             TargetCollection.__len__ c = 0) /\
  _flat_target_list (base (abc 1)) <> [].
Proof.
  split.
  - apply (proj1 (sibling_init_needs_a_target 1)). simpl. tauto.
  - apply (proj2 (sibling_init_needs_a_target 1) abc_arg (abc 1)).
    reflexivity.
Defined.

(** ** Hashes *)

Lemma sibling_hash_inherited create_hash handle_hash
  (s : sibling_file_collection) :
  SiblingFileCollection.hash create_hash handle_hash s =
  TargetCollection.hash_as (target_hash create_hash handle_hash) create_hash
    "SiblingFileCollection" (base s).
Proof. reflexivity. Qed.

(** C7.  Two collections of the same class whose flat target lists carry
    the same sequence of target hashes have the same hash, whatever their
    thresholds and their slots; the hash is the digest of the class name
    followed by the hashes of the flat targets, in the order of the flat
    list.  It is a function of these alone, so calling it again gives the
    same value. *)
Theorem hash_of_flat_target_hashes (create_hash : string -> string) :
  (forall (T : Type) (t_hash : T -> string) (c1 c2 : target_collection T),
     map t_hash (_flat_target_list c1) = map t_hash (_flat_target_list c2) ->
     TargetCollection.hash t_hash create_hash c1 =
     TargetCollection.hash t_hash create_hash c2) /\
  (forall handle_hash (s1 s2 : sibling_file_collection),
     map (target_hash create_hash handle_hash) (_flat_target_list (base s1)) =
     map (target_hash create_hash handle_hash) (_flat_target_list (base s2)) ->
     SiblingFileCollection.hash create_hash handle_hash s1 =
     SiblingFileCollection.hash create_hash handle_hash s2) /\
  (forall (T : Type) (t_hash : T -> string) (c : target_collection T),
     TargetCollection.hash t_hash create_hash c =
     create_hash
       ("TargetCollection" ++
        String.concat EmptyString (map t_hash (_flat_target_list c)))%string)
  /\
  (forall handle_hash (s : sibling_file_collection),
     SiblingFileCollection.hash create_hash handle_hash s =
     create_hash ("SiblingFileCollection" ++
                  String.concat EmptyString
                    (map (target_hash create_hash handle_hash)
                       (_flat_target_list (base s))))%string).
Proof.
  repeat split.
  - intros T t_hash c1 c2 H.
    unfold TargetCollection.hash, TargetCollection.hash_as. now rewrite H.
  - intros handle_hash s1 s2 H.
    rewrite !sibling_hash_inherited.
    unfold TargetCollection.hash_as. now rewrite H.
Qed.

Lemma hash_of_flat_target_hashes_witness :
  match constructed (TargetCollection.__init__ grouped_ab_c 1),
        constructed (TargetCollection.__init__ grouped_a_bc (1 # 2)) with
  | Some c1, Some c2 =>
      TargetCollection.hash (target_hash (fun s => s) (fun _ => "h"%string))
        (fun s => s) c1 =
      TargetCollection.hash (target_hash (fun s => s) (fun _ => "h"%string))
        (fun s => s) c2
  | _, _ => False
  end.
Proof.
  simpl.
  apply (proj1 (hash_of_flat_target_hashes (fun s => s))).
  reflexivity.
Defined.

(** ** Early stopping *)

Lemma five_constructed threshold :
  TargetCollection.__init__ five_arg threshold = Ok (five threshold).
Proof. reflexivity. Qed.


(** ** Scans of a sibling collection ask no target *)

Lemma quiet_ret {A : Type} (a : A) : quiet (ret a).
Proof. intro w. exists []. rewrite app_nil_r. now destruct w. Qed.

Lemma quiet_raise {A : Type} (e : exn) : quiet (@raise A e).
Proof. intro w. exists []. rewrite app_nil_r. now destruct w. Qed.

Lemma quiet_bind {A B : Type} (m : M A) (f : A -> M B) :
  quiet m -> (forall a, quiet (f a)) -> quiet (bind m f).
Proof.
  intros Hm Hf w. unfold bind.
  destruct (Hm w) as (evs & E & F).
  destruct (m w) as [[a | e] w1]; simpl in E; subst w1.
  - destruct (Hf a (MkWorld (store w) (log w ++ evs))) as (evs' & E' & F').
    exists (evs ++ evs'). rewrite E'. simpl. rewrite app_assoc.
    split; [reflexivity | now apply Forall_app].
  - now exists evs.
Qed.

Lemma quiet_dir_exists d : quiet (dir_exists d).
Proof.
  intro w. exists [EvDirExists d].
  split; [reflexivity | now repeat constructor].
Qed.

Lemma quiet_dir_listdir d : quiet (dir_listdir d).
Proof.
  intro w. exists [EvListdir d].
  split; [reflexivity | now repeat constructor].
Qed.

Create HintDb quiet.

#[local] Hint Resolve quiet_ret quiet_raise quiet_dir_exists
  quiet_dir_listdir : quiet.

Section QuietScan.

Variable nested_exists : target -> list string -> M bool.

Lemma quiet_slot_present basenames ts :
  Forall (fun t => forall b, quiet (nested_exists t b)) ts ->
  quiet (slot_present nested_exists basenames ts).
Proof.
  induction 1 as [| t r Ht Hr IH]; simpl; [auto with quiet |].
  destruct t as [h | h d b | s].
  - apply quiet_bind; [apply Ht |].
    intros []; simpl; auto with quiet.
  - destruct (negb (basename_in b basenames)); auto with quiet.
  - apply quiet_bind; [apply Ht |].
    intros []; simpl; auto with quiet.
Qed.

Lemma quiet_sibling_exists_loop (A : Type) (slot_targets : A -> list target)
  basenames threshold len slots :
  Forall (Forall (fun t => forall b, quiet (nested_exists t b)))
    (map slot_targets slots) ->
  forall i n,
    quiet (sibling_exists_loop nested_exists basenames slot_targets
             threshold len i n slots).
Proof.
  induction slots as [| x rest IH]; simpl; intros H i n; [auto with quiet |].
  inversion H as [| ? ? Hx Hrest]; subst.
  apply quiet_bind; [now apply quiet_slot_present |].
  intro b.
  destruct (Qle_bool _ _); [auto with quiet |].
  destruct (Qlt_bool _ _); [auto with quiet |].
  now apply IH.
Qed.

Lemma sibling_exists_frame (s : sibling_file_collection) basenames :
  Forall (Forall (fun t => forall b, quiet (nested_exists t b)))
    (TargetCollection._iter_flat (base s)) ->
  forall w, exists evs,
    snd (sibling_exists nested_exists s basenames w) =
      MkWorld (store w) (log w ++ EvDirExists (dir s) :: evs) /\
    Forall (fun e => is_target_probe e = false) evs.
Proof.
  intros H w. unfold sibling_exists. unfold bind at 1.
  rewrite dir_exists_run.
  destruct (st_dir_exists (store w) (dir s)) as [d | e].
  2:{ exists []. split; [reflexivity | constructor]. }
  assert (Q : quiet
    (if negb d then ret false
     else if Qeq_bool (TargetCollection._abs_threshold (base s)) 0
     then ret true
     else
       bn <- match basenames with
             | None => dir_listdir (dir s)
             | Some b => ret b
             end ;;
       match _flat_targets (base s) with
       | FSeq _ xs =>
           sibling_exists_loop nested_exists bn (fun x => x)
             (TargetCollection._abs_threshold (base s))
             (TargetCollection.__len__ (base s)) 0 0 xs
       | FDict kvs =>
           sibling_exists_loop nested_exists bn snd
             (TargetCollection._abs_threshold (base s))
             (TargetCollection.__len__ (base s)) 0 0 kvs
       end)).
  { destruct (negb d); [auto with quiet |].
    destruct (Qeq_bool _ _); [auto with quiet |].
    apply quiet_bind; [destruct basenames; auto with quiet |].
    intro bn. unfold TargetCollection._iter_flat in H.
    destruct (_flat_targets (base s)) as [k xs | kvs];
      apply quiet_sibling_exists_loop; [now rewrite map_id | exact H]. }
  destruct (Q (MkWorld (store w) (log w ++ [EvDirExists (dir s)])))
    as (evs & E & F).
  exists evs. split; [| exact F].
  rewrite E. simpl. now rewrite <- app_assoc.
Qed.

End QuietScan.

Lemma quiet_nested_exists :
  forall t b, quiet (target_exists t (Some b)).
Proof.
  induction t as [h | h d b' | s IH _] using target_nested_ind; intro b.
  - apply quiet_raise.
  - apply quiet_raise.
  - intro w. simpl.
    destruct (sibling_exists_frame
                (fun t' b0 => target_exists t' (Some b0)) s (Some b) IH w)
      as (evs & E & F).
    exists (EvDirExists (dir s) :: evs). split; [exact E |].
    constructor; [reflexivity | exact F].
Qed.

Lemma quiet_nested_targets (l : list target) :
  Forall (fun t => forall b, quiet (target_exists t (Some b))) l.
Proof. apply Forall_forall. intros t _. apply quiet_nested_exists. Qed.

Lemma sibling_exists_trace (s : sibling_file_collection) basenames w :
  exists evs,
    snd (SiblingFileCollection.exists_ s basenames w) =
      MkWorld (store w) (log w ++ EvDirExists (dir s) :: evs) /\
    Forall (fun e => is_target_probe e = false) evs.
Proof.
  unfold SiblingFileCollection.exists_. simpl.
  apply sibling_exists_frame.
  apply Forall_forall. intros l _. apply quiet_nested_targets.
Qed.

Lemma quiet_sibling_count_loop basenames slots :
  forall n ks, quiet (sibling_count_loop basenames n ks slots).
Proof.
  induction slots as [| [k ts] rest IH]; simpl; intros n ks;
    [auto with quiet |].
  apply quiet_bind;
    [apply quiet_slot_present, quiet_nested_targets |].
  intros []; apply IH.
Qed.

Lemma quiet_sibling_count (s : sibling_file_collection) existing keys_
  basenames :
  quiet (SiblingFileCollection.count s existing keys_ basenames).
Proof.
  unfold SiblingFileCollection.count.
  apply quiet_bind; [auto with quiet |].
  intro d. destruct (negb d).
  - destruct existing; auto with quiet.
  - apply quiet_bind; [destruct basenames; auto with quiet |].
    intro bn. apply quiet_bind; [apply quiet_sibling_count_loop |].
    auto with quiet.
Qed.

Lemma slot_present_files nested_exists basenames
  (files : list (handle * dirname * string)) w :
  slot_present nested_exists basenames
    (map (fun f => FileSystemTarget (fst (fst f)) (snd (fst f)) (snd f))
       files) w =
  (Ok (forallb (fun f => basename_in (snd f) basenames) files), w).
Proof.
  induction files as [| [[h d] b] r IH]; simpl; [reflexivity |].
  destruct (basename_in b basenames); simpl; [exact IH | reflexivity].
Qed.


(** ** A nested sibling collection in a missing directory *)

Lemma quiet_store {A : Type} (m : M A) w :
  quiet m -> store (snd (m w)) = store w.
Proof. intro Q. destruct (Q w) as (evs & E & _). now rewrite E. Qed.

Section MissingNested.

Variable nested : sibling_file_collection.
Variable basenames : list string.

Lemma slot_with_missing_nested ts :
  In (Sibling nested) ts ->
  forall w,
    st_dir_exists (store w) (dir nested) = Ok false ->
    run (slot_present (fun t b => target_exists t (Some b)) basenames ts) w
      <> Ok true.
Proof.
  unfold run.
  induction ts as [| t r IH]; intros Hin w Hd; [destruct Hin |].
  simpl. destruct t as [h | h d b | s].
  - unfold bind. simpl. discriminate.
  - destruct (negb (basename_in b basenames)); [simpl; discriminate |].
    destruct Hin as [Heq | Hin]; [discriminate |]. now apply IH.
  - unfold bind.
    destruct (target_exists (Sibling s) (Some basenames) w)
      as [[e | x] w1] eqn:E; [| simpl; discriminate].
    destruct e; simpl; [| discriminate].
    destruct Hin as [Heq | Hin].
    + injection Heq as ->.
      pose proof (sibling_exists_no_dir nested (Some basenames) w Hd) as N.
      unfold SiblingFileCollection.exists_ in N. rewrite N in E.
      discriminate.
    + apply IH; [exact Hin |].
      pose proof (quiet_store w (quiet_nested_exists (Sibling s) basenames))
        as S.
      rewrite E in S. simpl in S. now rewrite S.
Qed.

Lemma count_loop_skips_missing_nested slots :
  forall n ks w n' ks',
    st_dir_exists (store w) (dir nested) = Ok false ->
    run (sibling_count_loop basenames n ks slots) w = Ok (n', ks') ->
    exists counted,
      ks' = ks ++ map fst counted /\
      n' = n + Z.of_nat (List.length counted) /\
      (forall kv, In kv counted ->
         In kv slots /\ ~ In (Sibling nested) (snd kv)).
Proof.
  unfold run.
  induction slots as [| [k ts] rest IH]; intros n ks w n' ks' Hd; simpl.
  - intro H. injection H as <- <-. exists []. simpl.
    rewrite app_nil_r, Z.add_0_r.
    split; [reflexivity |]. split; [reflexivity |]. intros kv [].
  - unfold bind.
    pose proof (quiet_store w
      (@quiet_slot_present (fun t b => target_exists t (Some b)) basenames
         ts (quiet_nested_targets ts))) as S.
    pose proof (fun Hin =>
      slot_with_missing_nested ts Hin w Hd) as N.
    unfold run in N.
    destruct (slot_present (fun t b => target_exists t (Some b)) basenames
                ts w) as [[b | e] w1];
      simpl in S, N; [| simpl; discriminate].
    rewrite <- S in Hd. destruct b; intro H.
    + destruct (IH _ _ _ _ _ Hd H) as (counted & -> & -> & C).
      exists ((k, ts) :: counted). simpl. rewrite <- app_assoc. simpl.
      split; [reflexivity |]. split; [lia |].
      intros kv [<- | Hin].
      * split; [now left |]. simpl. intro Hin. now apply N.
      * destruct (C kv Hin). split; [now right | assumption].
    + destruct (IH _ _ _ _ _ Hd H) as (counted & -> & -> & C).
      exists counted. repeat split; try apply C; trivial.
      right. now apply C.
Qed.

End MissingNested.

Lemma gone_family_constructed :
  SiblingFileCollection.__init__
    (FromObject (PSeq KindList [PTarget gone_file])) 1 = Ok gone_child /\
  SiblingFileCollection.__init__
    (FromObject (PSeq KindList (map PTarget parent_targets))) 1
    = Ok parent_of_gone.
Proof. split; reflexivity. Qed.

(** C10.  [SiblingFileCollection.exists] asks its own directory first on
    every call, also when the caller supplies [basenames]; so in a scan of
    a parent collection a nested [SiblingFileCollection] whose directory
    does not exist answers false whatever [basenames] it is handed, its
    slot is never found present and [count] never counts that slot. *)
Theorem nested_sibling_asks_its_own_directory :
  (forall (s : sibling_file_collection) basenames w,
     exists evs,
       trace (SiblingFileCollection.exists_ s (Some basenames)) w =
       log w ++ EvDirExists (dir s) :: evs) /\
  (forall (nested : sibling_file_collection) w,
     st_dir_exists (store w) (dir nested) = Ok false ->
     (forall basenames,
        run (target_exists (Sibling nested) (Some basenames)) w = Ok false)
     /\
     (forall basenames ts,
        In (Sibling nested) ts ->
        run (slot_present (fun t b => target_exists t (Some b)) basenames ts)
          w <> Ok true) /\
     (forall (parent : sibling_file_collection) basenames n ks,
        run (SiblingFileCollection.count parent true true basenames) w
          = Ok (CountKeys n ks) ->
        exists counted,
          ks = map fst counted /\
          n = Z.of_nat (List.length counted) /\
          (forall kv, In kv counted ->
             In kv (TargetCollection._iter_flat_keys (base parent)) /\
             ~ In (Sibling nested) (snd kv)))).
Proof.
  split.
  - intros s basenames w. unfold trace.
    destruct (sibling_exists_trace s (Some basenames) w) as (evs & E & _).
    exists evs. now rewrite E.
  - intros nested w Hd. repeat split.
    + intro basenames. unfold run.
      pose proof (sibling_exists_no_dir nested (Some basenames) w Hd) as N.
      unfold SiblingFileCollection.exists_ in N. now rewrite N.
    + intros basenames ts Hin.
      exact (@slot_with_missing_nested nested basenames ts Hin w Hd).
    + intros parent basenames n ks. unfold run, SiblingFileCollection.count.
      unfold bind at 1. rewrite dir_exists_run.
      destruct (st_dir_exists (store w) (dir parent)) as [d | e];
        [| simpl; discriminate].
      destruct d; simpl.
      2:{ intro H. injection H as <- <-. exists []. simpl.
          split; [reflexivity |]. split; [reflexivity |]. intros kv []. }
      unfold bind at 1.
      set (w1 := MkWorld (store w) (log w ++ [EvDirExists (dir parent)])).
      assert (S : forall (m : M (list string)), quiet m ->
                store (snd (m w1)) = store w).
      { intros m Q. now rewrite (quiet_store w1 Q). }
      specialize (S _ (match basenames as o return
                         quiet (match o with
                                | None => dir_listdir (dir parent)
                                | Some b => ret b
                                end) with
                       | None => quiet_dir_listdir _
                       | Some b => quiet_ret b
                       end)).
      destruct (match basenames with
                | None => dir_listdir (dir parent)
                | Some b => ret b
                end w1) as [[bn | e] w2]; simpl in S; [| simpl; discriminate].
      unfold bind.
      destruct (sibling_count_loop bn 0 []
                  (TargetCollection._iter_flat_keys (base parent)) w2)
        as [[[n0 ks0] | e] w3] eqn:E; simpl; [| discriminate].
      intro H. injection H as <- <-.
      rewrite <- S in Hd.
      destruct (@count_loop_skips_missing_nested nested bn
                  (TargetCollection._iter_flat_keys (base parent))
                  0 [] w2 n0 ks0 Hd) as (counted & A & B & C).
      { unfold run. now rewrite E. }
      exists counted. simpl in A. repeat split; try apply C; trivial.
Qed.

Lemma nested_sibling_asks_its_own_directory_witness :
  run (target_exists (Sibling gone_child) (Some ["a.txt"%string]))
    (fresh data_without_gone) = Ok false /\
  run (slot_present (fun t b => target_exists t (Some b)) ["a.txt"%string]
         [Sibling gone_child]) (fresh data_without_gone) <> Ok true /\
  exists counted,
    [KInt 0] = map fst counted /\
    1 = Z.of_nat (List.length counted) /\
    (forall kv, In kv counted ->
       In kv (TargetCollection._iter_flat_keys (base parent_of_gone)) /\
       ~ In (Sibling gone_child) (snd kv)).
Proof.
  destruct (proj2 nested_sibling_asks_its_own_directory gone_child
              (fresh data_without_gone)) as (A & B & C);
    [reflexivity |].
  split; [exact (A ["a.txt"%string]) |]. split.
  - apply B. simpl. tauto.
  - apply (C parent_of_gone None). reflexivity.
Defined.

(** ** What the constructor establishes *)

Lemma enumerate_from_snd {A : Type} (xs : list A) i :
  map snd (enumerate_from i xs) = xs.
Proof.
  revert i. induction xs as [| x r IH]; intro i; simpl; [reflexivity |].
  now rewrite IH.
Qed.

Lemma iter_flat_keys_snd {T : Type} (c : target_collection T) :
  map snd (TargetCollection._iter_flat_keys c) = TargetCollection._iter_flat c.
Proof.
  unfold TargetCollection._iter_flat_keys, TargetCollection._iter_flat.
  destruct (_flat_targets c) as [k xs | kvs]; [| reflexivity].
  rewrite map_map. simpl. apply enumerate_from_snd.
Qed.

Lemma init_len {T : Type} (arg : init_arg T) threshold c :
  TargetCollection.__init__ arg threshold = Ok c ->
  TargetCollection.__len__ c =
  Z.of_nat (List.length (TargetCollection._iter_flat c)).
Proof.
  unfold TargetCollection.__init__.
  destruct (TargetCollection.accept arg) as [[k xs | kvs] | e];
    intro H; inversion H; subst; clear H;
    unfold TargetCollection.__len__, TargetCollection._iter_flat; simpl;
    now rewrite ?length_map.
Qed.

Lemma init_flat_list {T : Type} (arg : init_arg T) threshold c :
  TargetCollection.__init__ arg threshold = Ok c ->
  _flat_target_list c = List.concat (TargetCollection._iter_flat c).
Proof.
  unfold TargetCollection.__init__.
  destruct (TargetCollection.accept arg) as [[k xs | kvs] | e];
    intro H; inversion H; subst; clear H;
    unfold TargetCollection._iter_flat; simpl.
  - now rewrite flat_map_concat_map.
  - rewrite flat_map_concat_map, map_map. reflexivity.
Qed.

Lemma init_threshold {T : Type} (arg : init_arg T) thr c :
  TargetCollection.__init__ arg thr = Ok c -> threshold c = thr.
Proof.
  unfold TargetCollection.__init__.
  destruct (TargetCollection.accept arg); intro H; inversion H; reflexivity.
Qed.

Lemma len_nonneg {T : Type} (c : target_collection T) :
  0 <= TargetCollection.__len__ c.
Proof.
  unfold TargetCollection.__len__. destruct (targets c); lia.
Qed.

Lemma abs_threshold_nonneg {T : Type} (c : target_collection T) :
  (0 <= TargetCollection._abs_threshold c)%Q.
Proof.
  unfold TargetCollection._abs_threshold.
  assert (L : (0 <= inject_Z (TargetCollection.__len__ c))%Q).
  { change 0%Q with (inject_Z 0). rewrite <- Zle_Qle. apply len_nonneg. }
  destruct (Qlt_bool (threshold c) 0) eqn:N; [apply Qle_refl |].
  apply Qlt_bool_false_iff in N.
  destruct (Qle_bool (threshold c) 1).
  - now apply Qmult_le_0_compat.
  - assert (P : (0 <= py_max (threshold c) 0)%Q).
    { unfold py_max. destruct (Qlt_bool (threshold c) 0);
        [apply Qle_refl | exact N]. }
    unfold py_min. now destruct (Qlt_bool _ _).
Qed.

(** ** The early-stopping scan against the full count *)

Section PureScan.

Variable T : Type.
Variable t_exists : T -> M bool.
Variable s : storage.
Variable rep : T -> bool.

Lemma all_exist_pure ts :
  (forall t, In t ts -> reports t_exists s t (rep t)) ->
  forall w, store w = s ->
    exists w', TargetCollection.all_exist t_exists ts w
                 = (Ok (forallb rep ts), w') /\ store w' = s.
Proof.
  induction ts as [| t r IH]; intros H w Hw; simpl.
  - now exists w.
  - destruct (H t (or_introl eq_refl) w Hw) as (w1 & E & S1).
    erewrite bind_ok by exact E.
    destruct (rep t); simpl.
    + apply IH; [| exact S1]. intros t' Hin. apply H. now right.
    + now exists w1.
Qed.

Lemma full_among_cons l slots :
  full_among rep (l :: slots) =
  (if forallb rep l then 1 else 0) + full_among rep slots.
Proof.
  unfold full_among. cbn [filter].
  destruct (forallb rep l); cbn [List.length]; lia.
Qed.

Lemma full_among_bounds slots :
  0 <= full_among rep slots <= Z.of_nat (List.length slots).
Proof.
  unfold full_among. split; [lia |].
  apply inj_le, filter_length_le.
Qed.

Lemma exists_loop_pure threshold len slots :
  (forall t, In t (List.concat slots) -> reports t_exists s t (rep t)) ->
  forall i n w,
    store w = s ->
    len = i + Z.of_nat (List.length slots) ->
    (inject_Z n < threshold)%Q ->
    exists w',
      TargetCollection.exists_loop t_exists threshold len i n slots w =
      (Ok (Qle_bool threshold (inject_Z (n + full_among rep slots))), w') /\
      store w' = s.
Proof.
  induction slots as [| l rest IH]; intros H i n w Hw Hlen Hn.
  - simpl. exists w. split; [| exact Hw].
    unfold full_among. simpl. rewrite Z.add_0_r.
    apply Qle_bool_false_iff in Hn. now rewrite Hn.
  - simpl.
    destruct (all_exist_pure l) with (w := w) as (w1 & E & S1);
      [intros t Hin; apply H; simpl; apply in_or_app; now left | exact Hw |].
    erewrite bind_ok by exact E.
    rewrite full_among_cons.
    pose proof (full_among_bounds rest) as [B0 B1].
    simpl in Hlen.
    set (b := forallb rep l) in *.
    set (n' := if b then n + 1 else n).
    assert (En : n + ((if b then 1 else 0) + full_among rep rest) =
                 n' + full_among rep rest).
    { unfold n'. destruct b; lia. }
    rewrite En.
    destruct (b && Qle_bool threshold (inject_Z n')) eqn:Hit.
    + exists w1. split; [| exact S1].
      apply andb_true_iff in Hit. destruct Hit as [_ Hit].
      apply Qle_bool_iff in Hit.
      assert (R : Qle_bool threshold (inject_Z (n' + full_among rep rest))
                  = true).
      { apply Qle_bool_iff. eapply Qle_trans; [exact Hit |].
        rewrite <- Zle_Qle. lia. }
      now rewrite R.
    + assert (Hn' : (inject_Z n' < threshold)%Q).
      { unfold n' in *. destruct b; simpl in Hit.
        - now apply Qle_bool_false_iff.
        - exact Hn. }
      destruct (Qlt_bool (inject_Z (n' + (len - i - 1))) threshold) eqn:Low.
      * exists w1. split; [| exact S1].
        apply Qlt_bool_iff in Low.
        assert (R : Qle_bool threshold (inject_Z (n' + full_among rep rest))
                    = false).
        { apply Qle_bool_false_iff.
          eapply Qle_lt_trans; [| exact Low].
          rewrite <- Zle_Qle. lia. }
        now rewrite R.
      * apply IH; trivial.
        -- intros t Hin. apply H. simpl. apply in_or_app. now right.
        -- lia.
Qed.

Lemma count_loop_pure slots :
  (forall t, In t (List.concat (map snd slots)) ->
     reports t_exists s t (rep t)) ->
  forall n ks w,
    store w = s ->
    exists w',
      TargetCollection.count_loop t_exists n ks slots w =
      (Ok (n + full_among rep (map snd slots),
           ks ++ map fst (filter (fun kv => forallb rep (snd kv)) slots)),
       w') /\
      store w' = s.
Proof.
  induction slots as [| [k l] rest IH]; intros H n ks w Hw.
  - simpl. exists w. unfold full_among. simpl.
    now rewrite Z.add_0_r, app_nil_r.
  - simpl.
    destruct (all_exist_pure l) with (w := w) as (w1 & E & S1);
      [intros t Hin; apply H; simpl; apply in_or_app; now left | exact Hw |].
    erewrite bind_ok by exact E.
    rewrite full_among_cons.
    assert (H' : forall t, In t (List.concat (map snd rest)) ->
                   reports t_exists s t (rep t)).
    { intros t Hin. apply H. simpl. apply in_or_app. now right. }
    destruct (forallb rep l).
    + destruct (IH H' (n + 1) (ks ++ [k]) w1 S1) as (w2 & E2 & S2).
      exists w2. split; [| exact S2]. rewrite E2.
      rewrite <- app_assoc, Z.add_assoc. reflexivity.
    + destruct (IH H' n ks w1 S1) as (w2 & E2 & S2).
      exists w2. split; [| exact S2]. rewrite E2. reflexivity.
Qed.

End PureScan.

(** ** Where the scan of [exists] stops *)

Section StopScan.

Variable T : Type.
Variable t_exists : T -> M bool.
Variable s : storage.
Variable rep : T -> bool.
Variable threshold : Q.
Variable len : Z.

Lemma decided_ext k k' n n' :
  k = k' -> n = n' ->
  decided threshold len k n = decided threshold len k' n'.
Proof. now intros -> ->. Qed.

Lemma exists_loop_stops :
  forall (k : nat) slots i n w,
    (0 < k <= List.length slots)%nat ->
    store w = s ->
    (forall t, In t (List.concat (firstn k slots)) ->
       reports t_exists s t (rep t)) ->
    (inject_Z n < threshold)%Q ->
    (forall j, (0 < j < k)%nat ->
       decided threshold len (i + Z.of_nat j)
         (n + full_among rep (firstn j slots)) = false) ->
    decided threshold len (i + Z.of_nat k)
      (n + full_among rep (firstn k slots)) = true ->
    TargetCollection.exists_loop t_exists threshold len i n slots w =
    (Ok (Qle_bool threshold
           (inject_Z (n + full_among rep (firstn k slots)))),
     snd (scanned t_exists (firstn k slots) w)).
Proof.
  induction k as [| k IH]; intros slots i n w Hk Hw Hpure Hn Hbefore Hat;
    [lia |].
  destruct slots as [| l rest]; [simpl in Hk; lia |].
  cbn [firstn] in *. cbn [List.length] in Hk.
  destruct (@all_exist_pure T t_exists s rep l) with (w := w)
    as (w1 & E & S1);
    [intros t Hin; apply Hpure; simpl; apply in_or_app; now left
    | exact Hw |].
  cbn [TargetCollection.exists_loop scanned].
  erewrite !bind_ok by exact E.
  rewrite full_among_cons in Hat |- *.
  set (b := forallb rep l) in *.
  set (n' := if b then n + 1 else n).
  assert (En : forall m, n + ((if b then 1 else 0) + m) = n' + m).
  { intro m. unfold n'. destruct b; lia. }
  rewrite En in Hat |- *.
  destruct k as [| k].
  - (* the outcome is decided after this slot *)
    cbn [firstn scanned] in *.
    unfold full_among in Hat |- *. cbn [filter List.length] in *.
    change (Z.of_nat 0) with 0 in *. change (Z.of_nat 1) with 1 in *.
    rewrite Z.add_0_r in Hat |- *.
    unfold decided in Hat.
    destruct (Qle_bool threshold (inject_Z n')) eqn:Hit.
    + assert (Hb : b = true).
      { destruct b eqn:B; [reflexivity |]. unfold n' in Hit.
        apply Qle_bool_iff in Hit. exfalso.
        exact (Qlt_not_le _ _ Hn Hit). }
      rewrite Hb. reflexivity.
    + simpl in Hat. rewrite andb_false_r.
      replace (n' + (len - i - 1)) with (n' + (len - (i + 1))) by lia.
      now rewrite Hat.
  - (* the outcome is not decided yet *)
    assert (H1 : decided threshold len (i + Z.of_nat 1)
                   (n + full_among rep (firstn 1 (l :: rest))) = false).
    { apply Hbefore. lia. }
    cbn [firstn] in H1. rewrite full_among_cons, En in H1.
    unfold full_among in H1. cbn [filter List.length] in H1.
    change (Z.of_nat 0) with 0 in H1. change (Z.of_nat 1) with 1 in H1.
    rewrite Z.add_0_r in H1. unfold decided in H1.
    apply orb_false_iff in H1. destruct H1 as [Hit Low].
    rewrite Hit, andb_false_r.
    replace (n' + (len - i - 1)) with (n' + (len - (i + 1))) by lia.
    rewrite Low.
    apply IH; trivial.
    + lia.
    + intros t Hin. apply Hpure. simpl. apply in_or_app. now right.
    + now apply Qle_bool_false_iff.
    + intros j Hj.
      rewrite <- (Hbefore (S j)) by lia.
      cbn [firstn]. rewrite full_among_cons, En.
      apply decided_ext; lia.
    + rewrite <- Hat. apply decided_ext; lia.
Qed.

End StopScan.

(** C6.  [TargetCollection.exists] stops its scan as soon as the outcome is
    decided and asks no target of a later slot: when the outcome is decided
    after [k] slots and not before, the result is the comparison after
    these [k] slots and the world is the one left by asking the targets of
    the first [k] slots only, whatever the targets of the later slots would
    answer.  With five slots and the absolute threshold 2: when slots 0 and
    1 exist, [exists] returns true after asking the targets of slots 0 and
    1 only; when slots 0 to 3 are missing, it returns false after asking
    these four and never asks the target of slot 4, whatever that target
    would answer, an exception included. *)
Theorem exists_stops_early :
  (forall (T : Type) (t_exists : T -> M bool) (c : target_collection T)
          (rep : T -> bool) (w : world) (k : nat),
     let slots := TargetCollection._iter_flat c in
     let threshold := TargetCollection._abs_threshold c in
     let len := TargetCollection.__len__ c in
     Qeq_bool threshold 0 = false ->
     (0 < k <= List.length slots)%nat ->
     (forall t, In t (List.concat (firstn k slots)) ->
        reports t_exists (store w) t (rep t)) ->
     (forall j, (0 < j < k)%nat ->
        decided threshold len (Z.of_nat j)
          (full_among rep (firstn j slots)) = false) ->
     decided threshold len (Z.of_nat k)
       (full_among rep (firstn k slots)) = true ->
     TargetCollection.exists_ t_exists c w =
     (Ok (Qle_bool threshold
            (inject_Z (full_among rep (firstn k slots)))),
      snd (scanned t_exists (firstn k slots) w))) /\
  TargetCollection.__init__ five_arg 2 = Ok (five 2) /\
  TargetCollection._abs_threshold (five 2) = 2%Q /\
  (forall w,
     st_exists (store w) 0%nat = Ok true ->
     st_exists (store w) 1%nat = Ok true ->
     run (TargetCollection.exists_ plain_exists (five 2)) w = Ok true /\
     trace (TargetCollection.exists_ plain_exists (five 2)) w =
       log w ++ [EvExists 0%nat; EvExists 1%nat]) /\
  (forall w,
     (forall h, (h < 4)%nat -> st_exists (store w) h = Ok false) ->
     run (TargetCollection.exists_ plain_exists (five 2)) w = Ok false /\
     trace (TargetCollection.exists_ plain_exists (five 2)) w =
       log w ++ [EvExists 0%nat; EvExists 1%nat; EvExists 2%nat;
                 EvExists 3%nat]).
Proof.
  split.
  { intros T t_exists c rep w k slots threshold len Z0 Hk Hpure Hbefore
      Hat.
    unfold TargetCollection.exists_. fold threshold. rewrite Z0.
    fold len. fold slots.
    apply (@exists_loop_stops T t_exists (store w) rep threshold len k
             slots 0 0 w Hk eq_refl Hpure); trivial.
    destruct (Qlt_le_dec 0 threshold) as [P | N]; [exact P |].
    exfalso. apply Qeq_bool_neq in Z0. apply Z0.
    apply Qle_antisym; [exact N | apply abs_threshold_nonneg]. }
  split; [reflexivity |]. split; [reflexivity |]. split.
  - intros w H0 H1. unfold run, trace, TargetCollection.exists_.
    simpl. unfold bind. simpl.
    rewrite H0. simpl. rewrite H1. simpl.
    rewrite <- app_assoc. split; reflexivity.
  - intros w H. unfold run, trace, TargetCollection.exists_.
    simpl. unfold bind. simpl.
    rewrite (H 0%nat) by lia. simpl.
    rewrite (H 1%nat) by lia. simpl.
    rewrite (H 2%nat) by lia. simpl.
    rewrite (H 3%nat) by lia. simpl.
    rewrite <- !app_assoc. split; reflexivity.
Qed.

Lemma exists_stops_early_witness :
  TargetCollection.exists_ plain_exists (five (1 # 2))
    (fresh only_last_raises) =
  (Ok (Qle_bool (TargetCollection._abs_threshold (five (1 # 2)))
         (inject_Z
            (full_among (fun _ => false)
               (firstn 3 (TargetCollection._iter_flat (five (1 # 2))))))),
   snd (scanned plain_exists
          (firstn 3 (TargetCollection._iter_flat (five (1 # 2))))
          (fresh only_last_raises))) /\
  (run (TargetCollection.exists_ plain_exists (five 2))
     (fresh first_two_exist) = Ok true /\
   trace (TargetCollection.exists_ plain_exists (five 2))
     (fresh first_two_exist) = [] ++ [EvExists 0%nat; EvExists 1%nat]) /\
  (run (TargetCollection.exists_ plain_exists (five 2))
     (fresh only_last_raises) = Ok false /\
   trace (TargetCollection.exists_ plain_exists (five 2))
     (fresh only_last_raises) =
     [] ++ [EvExists 0%nat; EvExists 1%nat; EvExists 2%nat;
            EvExists 3%nat]).
Proof.
  destruct exists_stops_early as (G & _ & _ & A & B).
  split; [| split].
  - apply (G target plain_exists (five (1 # 2)) (fun _ => false)
             (fresh only_last_raises) 3%nat).
    + reflexivity.
    + simpl. lia.
    + intros t Hin w Hw. simpl in Hin. unfold plain_exists.
      destruct Hin as [<- | [<- | [<- | []]]]; simpl;
        rewrite handle_exists_run, Hw;
        (eexists; split; reflexivity).
    + intros j Hj.
      destruct j as [| [| [| j]]]; try lia; reflexivity.
    + reflexivity.
  - apply (A (fresh first_two_exist)); reflexivity.
  - apply (B (fresh only_last_raises)).
    intros h Hh. simpl.
    destruct (Nat.ltb_spec h 4); [reflexivity | lia].
Defined.


(** C1.  For a constructed [TargetCollection] whose targets report their
    existence purely, [exists()] returns true exactly when the number of
    slots whose targets all exist is at least [_abs_threshold()]; this is
    the comparison of [count(existing=True)] with the threshold, and with a
    zero absolute threshold [exists()] returns true without any call. *)
Theorem exists_iff_threshold_reached (T : Type) (t_exists : T -> M bool)
  (arg : init_arg T) (thr : Q) (c : target_collection T)
  (rep : T -> bool) (w : world) :
  TargetCollection.__init__ arg thr = Ok c ->
  (forall t, In t (_flat_target_list c) ->
     reports t_exists (store w) t (rep t)) ->
  let n := full_slots rep c in
  run (TargetCollection.exists_ t_exists c) w =
    Ok (Qle_bool (TargetCollection._abs_threshold c) (inject_Z n)) /\
  (run (TargetCollection.exists_ t_exists c) w = Ok true <->
   (TargetCollection._abs_threshold c <= inject_Z n)%Q) /\
  run (TargetCollection.count t_exists c true false) w = Ok (CountN n) /\
  (Qeq_bool (TargetCollection._abs_threshold c) 0 = true ->
   TargetCollection.exists_ t_exists c w = (Ok true, w)).
Proof.
  intros Hinit Hpure n.
  rewrite (init_flat_list _ _ Hinit) in Hpure.
  assert (Hex : run (TargetCollection.exists_ t_exists c) w =
                Ok (Qle_bool (TargetCollection._abs_threshold c)
                      (inject_Z n))).
  { unfold run, TargetCollection.exists_.
    destruct (Qeq_bool (TargetCollection._abs_threshold c) 0) eqn:Z0.
    - simpl. apply Qeq_bool_iff in Z0.
      assert (R : Qle_bool (TargetCollection._abs_threshold c) (inject_Z n)
                  = true).
      { apply Qle_bool_iff. rewrite Z0. change 0%Q with (inject_Z 0).
        rewrite <- Zle_Qle. apply full_among_bounds. }
      now rewrite R.
    - destruct (@exists_loop_pure T t_exists (store w) rep
                  (TargetCollection._abs_threshold c)
                  (TargetCollection.__len__ c)
                  (TargetCollection._iter_flat c) Hpure 0 0 w eq_refl)
        as (w' & E & _).
      + rewrite (init_len _ _ Hinit). lia.
      + destruct (Qlt_le_dec 0 (TargetCollection._abs_threshold c))
          as [P | N]; [exact P |].
        exfalso. apply Qeq_bool_neq in Z0. apply Z0.
        apply Qle_antisym; [exact N | apply abs_threshold_nonneg].
      + rewrite E. reflexivity. }
  split; [exact Hex |]. split; [| split].
  - rewrite Hex. rewrite <- Qle_bool_iff.
    split; [intro H; now inversion H | intros ->; reflexivity].
  - unfold run, TargetCollection.count.
    assert (Hk : forall t,
               In t (List.concat
                       (map snd (TargetCollection._iter_flat_keys c))) ->
               reports t_exists (store w) t (rep t)).
    { rewrite iter_flat_keys_snd. exact Hpure. }
    destruct (@count_loop_pure T t_exists (store w) rep
                (TargetCollection._iter_flat_keys c) Hk 0 [] w eq_refl)
      as (w' & E & _).
    erewrite bind_ok by exact E. simpl.
    now rewrite iter_flat_keys_snd.
  - intro Z0. unfold TargetCollection.exists_. now rewrite Z0.
Qed.

Lemma exists_iff_threshold_reached_witness :
  run (TargetCollection.exists_ plain_exists (five (1 # 2)))
    (fresh odd_exist) = Ok false /\
  (run (TargetCollection.exists_ plain_exists (five (1 # 2)))
     (fresh odd_exist) = Ok true <->
   (TargetCollection._abs_threshold (five (1 # 2)) <= inject_Z 2)%Q) /\
  run (TargetCollection.count plain_exists (five (1 # 2)) true false)
    (fresh odd_exist) = Ok (CountN 2) /\
  (Qeq_bool (TargetCollection._abs_threshold (five (1 # 2))) 0 = true ->
   TargetCollection.exists_ plain_exists (five (1 # 2)) (fresh odd_exist)
     = (Ok true, fresh odd_exist)).
Proof.
  apply (@exists_iff_threshold_reached target plain_exists five_arg (1 # 2)
           (five (1 # 2)) odd_report (fresh odd_exist)).
  - reflexivity.
  - intros t Hin w Hw. simpl in Hin.
    unfold plain_exists.
    destruct Hin as [<- | [<- | [<- | [<- | [<- | []]]]]]; simpl;
      rewrite handle_exists_run, Hw;
      (eexists; split; reflexivity).
Defined.

(** ** Removal *)

Lemma remove_loop_app {T : Type} (t_remove : T -> bool -> M unit)
  silent (xs ys : list T) w :
  TargetCollection.remove_loop t_remove (xs ++ ys) silent w =
  bind (TargetCollection.remove_loop t_remove xs silent)
    (fun _ => TargetCollection.remove_loop t_remove ys silent) w.
Proof.
  revert w. induction xs as [| x r IH]; intro w; simpl; [reflexivity |].
  unfold bind.
  destruct (t_remove x silent w) as [[[] | e] w1]; [| reflexivity].
  rewrite IH. reflexivity.
Qed.

(** Whatever [remove] of the targets does: the loop stops at the first
    target whose removal raises, in the world that removal left. *)
Lemma remove_loop_stops {T : Type} (t_remove : T -> bool -> M unit)
  silent (pre post : list T) (t : T) w w1 e w2 :
  TargetCollection.remove_loop t_remove pre silent w = (Ok tt, w1) ->
  t_remove t silent w1 = (Raise e, w2) ->
  TargetCollection.remove_loop t_remove (pre ++ t :: post) silent w =
  (Raise e, w2).
Proof.
  intros Hpre Ht. rewrite remove_loop_app.
  erewrite bind_ok by exact Hpre. simpl.
  now erewrite bind_raise by exact Ht.
Qed.

Lemma remove_loop_handles silent (ts : list target) :
  Forall (fun t => forall w,
            target_remove t silent w =
            TargetCollection.remove_loop handle_remove (handles_of t)
              silent w) ts ->
  forall w,
    TargetCollection.remove_loop (fun t' => target_remove t') ts silent w =
    TargetCollection.remove_loop handle_remove (flat_map handles_of ts)
      silent w.
Proof.
  induction 1 as [| t r Ht Hr IH]; intro w; simpl; [reflexivity |].
  rewrite remove_loop_app. unfold bind.
  rewrite Ht.
  destruct (TargetCollection.remove_loop handle_remove (handles_of t)
              silent w) as [[[] | e] w1]; [apply IH | reflexivity].
Qed.

Lemma target_remove_handles silent :
  forall t w,
    target_remove t silent w =
    TargetCollection.remove_loop handle_remove (handles_of t) silent w.
Proof.
  induction t as [h | h d b | s _ IH] using target_nested_ind; intro w.
  - simpl. unfold bind.
    now destruct (handle_remove h silent w) as [[[] | e] w1].
  - simpl. unfold bind.
    now destruct (handle_remove h silent w) as [[[] | e] w1].
  - simpl. unfold TargetCollection.remove.
    now apply remove_loop_handles.
Qed.

Lemma collection_remove_handles (c : target_collection target) silent w :
  TargetCollection.remove plain_remove c silent w =
  TargetCollection.remove_loop handle_remove
    (flat_map handles_of (_flat_target_list c)) silent w.
Proof.
  unfold TargetCollection.remove, plain_remove.
  apply remove_loop_handles.
  apply Forall_forall. intros t _. apply target_remove_handles.
Qed.

Lemma handle_remove_run h silent w :
  handle_remove h silent w =
  (if removal_fails (store w) h && negb silent
   then Raise (OSError h) else Ok tt,
   MkWorld
     (if removal_fails (store w) h then store w else forget h (store w))
     (log w ++ [EvRemove h silent])).
Proof.
  unfold handle_remove, bind, emit. simpl.
  destruct (removal_fails (store w) h), silent; reflexivity.
Qed.

Lemma remove_handles_silent hs :
  forall w,
    TargetCollection.remove_loop handle_remove hs true w =
    (Ok tt,
     MkWorld (after_removals hs (store w))
       (log w ++ map (fun h => EvRemove h true) hs)).
Proof.
  induction hs as [| h r IH]; intro w; simpl.
  - rewrite app_nil_r. now destruct w.
  - unfold bind at 1. rewrite handle_remove_run.
    rewrite andb_false_r. rewrite IH. simpl.
    now rewrite <- app_assoc.
Qed.

Lemma remove_handles_loud_all hs :
  forall w,
    all_removable (store w) hs = true ->
    TargetCollection.remove_loop handle_remove hs false w =
    (Ok tt,
     MkWorld (after_removals hs (store w))
       (log w ++ map (fun h => EvRemove h false) hs)).
Proof.
  induction hs as [| x r IH]; intros w H.
  - simpl. rewrite app_nil_r. now destruct w.
  - cbn [TargetCollection.remove_loop].
    simpl in H. apply andb_true_iff in H. destruct H as [Hx Hr].
    apply negb_true_iff in Hx.
    assert (E : after_removals (x :: r) (store w)
                = after_removals r (forget x (store w))).
    { unfold after_removals. cbn [fold_left]. now rewrite Hx. }
    unfold bind at 1. rewrite handle_remove_run, Hx. cbn [andb].
    rewrite IH by exact Hr. rewrite E. cbn [store log map].
    now rewrite <- app_assoc.
Qed.

Lemma remove_handles_loud pre h post :
  forall w,
    all_removable (store w) pre = true ->
    removal_fails (after_removals pre (store w)) h = true ->
    TargetCollection.remove_loop handle_remove (pre ++ h :: post) false w =
    (Raise (OSError h),
     MkWorld (after_removals pre (store w))
       (log w ++ map (fun h => EvRemove h false) (pre ++ [h]))).
Proof.
  intros w Hpre Hh. rewrite remove_loop_app.
  erewrite bind_ok by (apply remove_handles_loud_all; exact Hpre).
  simpl. unfold bind at 1. rewrite handle_remove_run. simpl.
  rewrite Hh. simpl. now rewrite map_app, app_assoc.
Qed.

Lemma absent_stays hs :
  forall s h,
    st_exists s h = Ok false ->
    st_exists (after_removals hs s) h = Ok false.
Proof.
  induction hs as [| x r IH]; intros s h H; [exact H |].
  unfold after_removals. simpl. fold (after_removals r).
  destruct (removal_fails s x); apply IH; [exact H |].
  simpl. destruct (Nat.eqb h x); [reflexivity | exact H].
Qed.

Lemma removed_is_absent pre :
  forall s x,
    all_removable s pre = true -> In x pre ->
    st_exists (after_removals pre s) x = Ok false.
Proof.
  induction pre as [| y r IH]; intros s x H Hin; [destruct Hin |].
  simpl in H. apply andb_true_iff in H. destruct H as [Hy Hr].
  apply negb_true_iff in Hy.
  unfold after_removals. simpl. rewrite Hy. fold (after_removals r).
  destruct Hin as [-> | Hin].
  - apply absent_stays. simpl. now rewrite Nat.eqb_refl.
  - now apply IH.
Qed.

Lemma absent_removal_fails s h :
  st_exists s h = Ok false -> removal_fails s h = true.
Proof. intro H. unfold removal_fails, is_present. now rewrite H. Qed.

(** C8.  [remove(silent)] calls [remove] on the flat targets in their
    order.  With [silent=True] a removal that fails is swallowed and every
    target is processed.  With [silent=False] every target is processed
    when no removal fails; otherwise the first failure is raised to the
    caller, no later target is processed, and what was removed before
    stays removed.  A removal fails in particular when the resource is
    already absent or was removed earlier in the same call. *)
Theorem remove_in_flat_order (c : target_collection target) (w : world) :
  let hs := flat_map handles_of (_flat_target_list c) in
  (run (TargetCollection.remove plain_remove c true) w = Ok tt /\
   trace (TargetCollection.remove plain_remove c true) w =
     log w ++ map (fun h => EvRemove h true) hs /\
   store (snd (TargetCollection.remove plain_remove c true w)) =
     after_removals hs (store w)) /\
  (all_removable (store w) hs = true ->
   run (TargetCollection.remove plain_remove c false) w = Ok tt /\
   trace (TargetCollection.remove plain_remove c false) w =
     log w ++ map (fun h => EvRemove h false) hs /\
   forall x, In x hs ->
     st_exists (store (snd (TargetCollection.remove plain_remove c false w)))
       x = Ok false) /\
  (forall pre h post,
     hs = pre ++ h :: post ->
     all_removable (store w) pre = true ->
     removal_fails (after_removals pre (store w)) h = true ->
     run (TargetCollection.remove plain_remove c false) w
       = Raise (OSError h) /\
     trace (TargetCollection.remove plain_remove c false) w =
       log w ++ map (fun x => EvRemove x false) (pre ++ [h]) /\
     store (snd (TargetCollection.remove plain_remove c false w)) =
       after_removals pre (store w) /\
     forall x, In x pre ->
       st_exists
         (store (snd (TargetCollection.remove plain_remove c false w))) x
       = Ok false) /\
  (forall pre h post,
     hs = pre ++ h :: post ->
     all_removable (store w) pre = true ->
     st_exists (store w) h = Ok false \/ In h pre ->
     run (TargetCollection.remove plain_remove c false) w
       = Raise (OSError h) /\
     trace (TargetCollection.remove plain_remove c false) w =
       log w ++ map (fun x => EvRemove x false) (pre ++ [h])).
Proof.
  intro hs.
  assert (Loud : forall pre h post,
            hs = pre ++ h :: post ->
            all_removable (store w) pre = true ->
            removal_fails (after_removals pre (store w)) h = true ->
            TargetCollection.remove plain_remove c false w =
            (Raise (OSError h),
             MkWorld (after_removals pre (store w))
               (log w ++ map (fun x => EvRemove x false) (pre ++ [h])))).
  { intros pre h post E Hpre Hh.
    rewrite collection_remove_handles. fold hs. rewrite E.
    now apply remove_handles_loud. }
  split; [| split; [| split]].
  - unfold run, trace. rewrite collection_remove_handles.
    fold hs. rewrite remove_handles_silent. now repeat split.
  - intro H. unfold run, trace. rewrite collection_remove_handles.
    fold hs. rewrite (remove_handles_loud_all hs w H). simpl.
    split; [reflexivity |]. split; [reflexivity |].
    intros x Hin. now apply removed_is_absent.
  - intros pre h post E Hpre Hh. unfold run, trace.
    rewrite (Loud pre h post E Hpre Hh). simpl.
    split; [reflexivity |]. split; [reflexivity |].
    split; [reflexivity |].
    intros x Hin. now apply removed_is_absent.
  - intros pre h post E Hpre Hh. unfold run, trace.
    rewrite (Loud pre h post E Hpre); [now split |].
    apply absent_removal_fails.
    destruct Hh as [Hh | Hh];
      [now apply absent_stays | now apply removed_is_absent].
Qed.

Lemma remove_in_flat_order_witness :
  (run (TargetCollection.remove plain_remove (base (abc 1)) false)
     (fresh all_present) = Ok tt /\
   trace (TargetCollection.remove plain_remove (base (abc 1)) false)
     (fresh all_present) =
     [] ++ [EvRemove 0%nat false; EvRemove 1%nat false;
            EvRemove 2%nat false]) /\
  (run (TargetCollection.remove plain_remove (base (abc 1)) false)
     (fresh second_fails) = Raise (OSError 1%nat) /\
   trace (TargetCollection.remove plain_remove (base (abc 1)) false)
     (fresh second_fails) =
     [] ++ [EvRemove 0%nat false; EvRemove 1%nat false] /\
   store (snd (TargetCollection.remove plain_remove (base (abc 1)) false
                 (fresh second_fails))) =
     after_removals [0%nat] second_fails) /\
  (run (TargetCollection.remove plain_remove twice false)
     (fresh all_present) = Raise (OSError 0%nat) /\
   trace (TargetCollection.remove plain_remove twice false)
     (fresh all_present) =
     [] ++ [EvRemove 0%nat false; EvRemove 0%nat false]) /\
  (run (TargetCollection.remove plain_remove (base (abc 1)) false)
     (fresh first_absent) = Raise (OSError 0%nat) /\
   trace (TargetCollection.remove plain_remove (base (abc 1)) false)
     (fresh first_absent) = [] ++ [EvRemove 0%nat false]).
Proof.
  split; [| split; [| split]].
  - destruct (remove_in_flat_order (base (abc 1)) (fresh all_present))
      as (_ & A & _).
    destruct (A eq_refl) as (R & T & _). now split.
  - destruct (remove_in_flat_order (base (abc 1)) (fresh second_fails))
      as (_ & _ & B & _).
    destruct (B [0%nat] 1%nat [2%nat] eq_refl eq_refl eq_refl)
      as (R & T & S & _).
    split; [exact R |]. split; [exact T | exact S].
  - destruct (remove_in_flat_order twice (fresh all_present))
      as (_ & _ & _ & D).
    apply (D [0%nat] 0%nat [1%nat] eq_refl eq_refl).
    right. simpl. tauto.
  - destruct (remove_in_flat_order (base (abc 1)) (fresh first_absent))
      as (_ & _ & _ & D).
    apply (D [] 0%nat [1%nat; 2%nat] eq_refl eq_refl).
    left. reflexivity.
Defined.

(** * Further properties *)

(** ** Command line arguments *)

Lemma arg_in_iff arg args : Parser.arg_in arg args = true <-> In arg args.
Proof.
  unfold Parser.arg_in. rewrite existsb_exists. split.
  - intros (x & Hin & E). apply String.eqb_eq in E. now subst.
  - intro H. exists arg. split; [exact H | apply String.eqb_refl].
Qed.

Lemma arg_in_false_iff arg args :
  Parser.arg_in arg args = false <-> ~ In arg args.
Proof.
  rewrite <- arg_in_iff. destruct (Parser.arg_in arg args); split;
    congruence.
Qed.

Lemma index_first (arg : string) (pre post : list string) :
  ~ In arg pre ->
  Parser.index arg (pre ++ arg :: post) = Some (List.length pre).
Proof.
  induction pre as [| a r IH]; intro H; simpl.
  - now rewrite String.eqb_refl.
  - destruct (String.eqb_spec a arg) as [-> | N].
    + exfalso. apply H. now left.
    + rewrite IH; [reflexivity |]. intro Hin. apply H. now right.
Qed.

Lemma first_occurrence (arg : string) (args : list string) :
  In arg args ->
  exists pre post, args = pre ++ arg :: post /\ ~ In arg pre.
Proof.
  induction args as [| a r IH]; intro H; [destruct H |].
  destruct (String.eqb_spec a arg) as [-> | N].
  - exists (@nil string), r. split; [reflexivity | intros []].
  - destruct H as [-> | H]; [congruence |].
    destruct (IH H) as (pre & post & -> & Hpre).
    exists (a :: pre), post. split; [reflexivity |].
    intros [E | Hin]; [congruence | now apply Hpre].
Qed.

Lemma remove_at_first (arg : string) (pre post : list string) n :
  ~ In arg pre ->
  Parser.remove_cmdline_arg (pre ++ arg :: post) arg n =
  pre ++ skipn (Z.to_nat (Z.max n 1) - 1) post.
Proof.
  intro H. unfold Parser.remove_cmdline_arg.
  assert (I : Parser.arg_in arg (pre ++ arg :: post) = true).
  { apply arg_in_iff, in_or_app. right. now left. }
  rewrite I, (@index_first arg pre post H).
  rewrite firstn_app, Nat.sub_diag, firstn_all. simpl.
  rewrite app_nil_r. f_equal.
  rewrite skipn_app, skipn_all2 by lia. simpl.
  replace (List.length pre + Z.to_nat (Z.max n 1) - List.length pre)%nat
    with (S (Z.to_nat (Z.max n 1) - 1)) by lia.
  reflexivity.
Qed.

(** X1.  After [add_cmdline_arg] the argument is in the list, and adding it
    again changes nothing, whatever values come with the second call: the
    values of an argument that is present are never updated. *)
Theorem add_cmdline_arg_idempotent (args : list string) (arg : string)
  (values values' : list string) :
  In arg (Parser.add_cmdline_arg args arg values) /\
  Parser.add_cmdline_arg (Parser.add_cmdline_arg args arg values) arg values'
    = Parser.add_cmdline_arg args arg values.
Proof.
  assert (P : In arg (Parser.add_cmdline_arg args arg values)).
  { unfold Parser.add_cmdline_arg.
    destruct (Parser.arg_in arg args) eqn:E; simpl.
    - now apply arg_in_iff.
    - apply in_or_app. right. now left. }
  split; [exact P |].
  apply arg_in_iff in P.
  unfold Parser.add_cmdline_arg at 1. now rewrite P.
Qed.

(** X2.  Removing an argument that was just added, together with its
    values, gives the list back: for [arg] not in [args],
    [remove_cmdline_arg(add_cmdline_arg(args, arg, *values), arg,
    1 + len(values))] is [args]. *)
Theorem remove_after_add (args : list string) (arg : string)
  (values : list string) :
  ~ In arg args ->
  Parser.remove_cmdline_arg (Parser.add_cmdline_arg args arg values) arg
    (1 + Z.of_nat (List.length values)) = args.
Proof.
  intro H. unfold Parser.add_cmdline_arg.
  rewrite (proj2 (arg_in_false_iff arg args) H). cbn [negb app].
  rewrite (@remove_at_first arg args values _ H).
  rewrite skipn_all2 by lia. apply app_nil_r.
Qed.

Lemma remove_after_add_witness :
  Parser.remove_cmdline_arg
    (Parser.add_cmdline_arg ["--local-scheduler"%string] "--workers"%string
       ["4"%string])
    "--workers"%string (1 + Z.of_nat (List.length ["4"%string]))
  = ["--local-scheduler"%string].
Proof.
  apply remove_after_add. simpl. intros [E | []]. discriminate.
Defined.

(** X3.  [remove_cmdline_arg] cuts at the first occurrence of [arg] only:
    what stands before it is kept, the argument and the [max(n, 1) - 1]
    entries after it are dropped (fewer when the list ends earlier), and
    the rest is kept.  A list without [arg] is returned as it is. *)
Theorem remove_cmdline_arg_shape (args : list string) (arg : string)
  (n : Z) :
  (~ In arg args -> Parser.remove_cmdline_arg args arg n = args) /\
  (In arg args ->
   exists pre post,
     args = pre ++ arg :: post /\ ~ In arg pre /\
     Parser.remove_cmdline_arg args arg n =
       pre ++ skipn (Z.to_nat (Z.max n 1) - 1) post).
Proof.
  split.
  - intro H. unfold Parser.remove_cmdline_arg.
    now rewrite (proj2 (arg_in_false_iff arg args) H).
  - intro H.
    destruct (@first_occurrence arg args H) as (pre & post & -> & Hpre).
    exists pre, post. split; [reflexivity |]. split; [exact Hpre |].
    now apply remove_at_first.
Qed.

Lemma remove_cmdline_arg_shape_witness :
  exists pre post,
    ["-a"; "--workers"; "4"; "-b"]%string = pre ++ "--workers"%string :: post
    /\ ~ In "--workers"%string pre /\
    Parser.remove_cmdline_arg ["-a"; "--workers"; "4"; "-b"]%string
      "--workers"%string 2 =
      pre ++ skipn (Z.to_nat (Z.max 2 1) - 1) post.
Proof.
  apply (proj2 (remove_cmdline_arg_shape
                  ["-a"; "--workers"; "4"; "-b"]%string "--workers"%string 2)).
  simpl. tauto.
Defined.

(** X4.  With [n] at most 1, [remove_cmdline_arg] removes one occurrence of
    [arg] and no more: an argument given twice is still in the result. *)
Theorem remove_cmdline_arg_once (args : list string) (arg : string) (n : Z) :
  n <= 1 ->
  count_occ string_dec (Parser.remove_cmdline_arg args arg n) arg =
  Nat.pred (count_occ string_dec args arg).
Proof.
  intro Hn.
  destruct (in_dec string_dec arg args) as [H | H].
  - destruct (@first_occurrence arg args H) as (pre & post & -> & Hpre).
    rewrite (@remove_at_first arg pre post n Hpre).
    replace (Z.to_nat (Z.max n 1) - 1)%nat with 0%nat by lia. simpl.
    rewrite !count_occ_app. simpl.
    destruct (string_dec arg arg); [| congruence].
    rewrite Nat.add_succ_r. reflexivity.
  - unfold Parser.remove_cmdline_arg.
    rewrite (proj2 (arg_in_false_iff arg args) H).
    now rewrite (proj1 (count_occ_not_In string_dec args arg) H).
Qed.

Lemma remove_cmdline_arg_once_witness :
  count_occ string_dec
    (Parser.remove_cmdline_arg ["-v"; "-x"; "-v"]%string "-v"%string 1)
    "-v"%string =
  Nat.pred (count_occ string_dec ["-v"; "-x"; "-v"]%string "-v"%string).
Proof. apply remove_cmdline_arg_once. lia. Defined.

(** ** What the constructor of [TargetCollection] establishes *)

Lemma enumerate_from_fst {A : Type} (xs : list A) i :
  map fst (enumerate_from i xs) =
  map (fun k => i + Z.of_nat k) (seq 0 (List.length xs)).
Proof.
  revert i. induction xs as [| x r IH]; intro i; simpl; [reflexivity |].
  rewrite IH, <- seq_shift, map_map. f_equal; [lia |].
  apply map_ext. intro k. lia.
Qed.

Lemma range_of_length (n : nat) :
  range (Z.of_nat n) = map Z.of_nat (seq 0 n).
Proof. unfold range. now rewrite Nat2Z.id. Qed.

Lemma init_keys {T : Type} (arg : init_arg T) thr c :
  TargetCollection.__init__ arg thr = Ok c ->
  TargetCollection.keys c = map fst (TargetCollection._iter_flat_keys c).
Proof.
  unfold TargetCollection.__init__.
  destruct (TargetCollection.accept arg) as [[k xs | kvs] | e];
    intro H; inversion H; subst; clear H;
    unfold TargetCollection.keys, TargetCollection._iter_flat_keys,
      TargetCollection.__len__; simpl.
  - rewrite range_of_length, !map_map. simpl.
    unfold enumerate.
    rewrite <- (map_map fst KInt), enumerate_from_fst, length_map, map_map.
    reflexivity.
  - now rewrite map_map.
Qed.

(** X5.  A [TargetCollection] that was constructed has one flat slot and
    one key per element of its argument: [len(self)] is the number of flat
    slots and the number of keys, [keys()] lists the keys that
    [_iter_flat(keys=True)] yields, in the same order, and for a list, tuple
    or generator these are 0 to [len(self) - 1]. *)
Theorem init_slots_and_keys (T : Type) (arg : init_arg T) (thr : Q)
  (c : target_collection T) :
  TargetCollection.__init__ arg thr = Ok c ->
  threshold c = thr /\
  TargetCollection.__len__ c =
    Z.of_nat (List.length (TargetCollection._iter_flat c)) /\
  TargetCollection.__len__ c =
    Z.of_nat (List.length (TargetCollection.keys c)) /\
  TargetCollection.keys c = map fst (TargetCollection._iter_flat_keys c) /\
  (forall k xs, targets c = SSeq k xs ->
     TargetCollection.keys c =
     map (fun i => KInt (Z.of_nat i)) (seq 0 (List.length xs))).
Proof.
  intro H. split; [exact (init_threshold _ _ H) |].
  split; [exact (init_len _ _ H) |].
  split; [| split; [exact (init_keys _ _ H) |]].
  - rewrite (init_keys _ _ H), length_map, (init_len _ _ H).
    now rewrite <- iter_flat_keys_snd, length_map.
  - intros k xs E. revert H. unfold TargetCollection.__init__.
    destruct (TargetCollection.accept arg) as [[k' xs' | kvs] | e];
      intro H; inversion H; subst; clear H; simpl in E; inversion E; subst.
    unfold TargetCollection.keys, TargetCollection.__len__. simpl.
    now rewrite range_of_length, map_map.
Qed.

Lemma init_slots_and_keys_witness :
  threshold (five (1 # 2)) = (1 # 2)%Q /\
  TargetCollection.__len__ (five (1 # 2)) =
    Z.of_nat (List.length (TargetCollection._iter_flat (five (1 # 2)))) /\
  TargetCollection.__len__ (five (1 # 2)) =
    Z.of_nat (List.length (TargetCollection.keys (five (1 # 2)))) /\
  TargetCollection.keys (five (1 # 2)) =
    map fst (TargetCollection._iter_flat_keys (five (1 # 2))) /\
  TargetCollection.keys (five (1 # 2)) =
    map (fun i => KInt (Z.of_nat i))
      (seq 0 (List.length (map PTarget five_targets))).
Proof.
  destruct (@init_slots_and_keys target five_arg (1 # 2) (five (1 # 2))
              eq_refl) as (A & B & C & D & E).
  split; [exact A |]. split; [exact B |]. split; [exact C |].
  split; [exact D |].
  exact (E KindList (map PTarget five_targets) eq_refl).
Defined.

(** ** Access to a slot *)

Lemma key_eqb_eq (a b : key) : key_eqb a b = true <-> a = b.
Proof.
  destruct a as [i | s], b as [j | t]; simpl.
  - rewrite Z.eqb_eq. split; [now intros -> | now inversion 1].
  - split; discriminate.
  - split; discriminate.
  - rewrite String.eqb_eq. split; [now intros -> | now inversion 1].
Qed.

Lemma enumerate_from_In {A : Type} (xs : list A) :
  forall s i x,
    In (i, x) (enumerate_from s xs) ->
    s <= i /\ nth_error xs (Z.to_nat (i - s)) = Some x.
Proof.
  induction xs as [| y r IH]; intros s i x H; [destruct H |].
  simpl in H. destruct H as [E | H].
  - inversion E; subst. rewrite Z.sub_diag. split; [lia | reflexivity].
  - destruct (IH _ _ _ H) as [L N]. split; [lia |].
    replace (Z.to_nat (i - s)) with (S (Z.to_nat (i - (s + 1)))) by lia.
    exact N.
Qed.

Lemma seq_item_nth {A : Type} (xs : list A) (j : nat) (x : A) :
  nth_error xs j = Some x -> seq_item xs (Z.of_nat j) = Got x.
Proof.
  intro H. unfold seq_item. cbv zeta.
  assert (L : (j < List.length xs)%nat).
  { apply nth_error_Some. congruence. }
  assert (E1 : (Z.of_nat j <? 0) = false) by (apply Z.ltb_ge; lia).
  assert (E2 : (Z.of_nat (List.length xs) <=? Z.of_nat j) = false)
    by (apply Z.leb_gt; lia).
  rewrite E1. rewrite E1, E2. cbn [orb].
  rewrite Nat2Z.id, H. reflexivity.
Qed.

Lemma dict_item_unique {A : Type} (kvs : list (key * A)) (k : key) (v : A) :
  NoDup (map fst kvs) -> In (k, v) kvs -> dict_item kvs k = Got v.
Proof.
  unfold dict_item.
  induction kvs as [| [k' v'] r IH]; intros N H; [destruct H |].
  simpl in *. inversion N as [| ? ? Hnot Hr]; subst.
  destruct (key_eqb k' k) eqn:E.
  - apply key_eqb_eq in E. subst k'.
    destruct H as [H | H]; [now inversion H |].
    exfalso. apply Hnot. now apply (in_map fst) in H.
  - destruct H as [H | H].
    + inversion H; subst. rewrite (proj2 (key_eqb_eq k k) eq_refl) in E.
      discriminate.
    + now apply IH.
Qed.

(** X6.  In a constructed [TargetCollection] the flat slot that
    [_iter_flat(keys=True)] yields under the key [k] is the flattening of
    the raw item [self[k]]; the keys of a dict being distinct, [self[k]] is
    found for every such key. *)
Theorem getitem_flattens_to_flat_slot (T : Type) (arg : init_arg T)
  (thr : Q) (c : target_collection T) (k : key) (slot : list T) :
  TargetCollection.__init__ arg thr = Ok c ->
  NoDup (TargetCollection.keys c) ->
  In (k, slot) (TargetCollection._iter_flat_keys c) ->
  exists item,
    TargetCollectionRest.__getitem__ c k = Got item /\ flatten item = slot.
Proof.
  unfold TargetCollection.__init__.
  destruct (TargetCollection.accept arg) as [[kd xs | kvs] | e];
    intro H; inversion H; subst; clear H;
    unfold TargetCollection.keys, TargetCollection._iter_flat_keys,
      TargetCollectionRest.__getitem__; simpl; intros N Hin.
  - apply in_map_iff in Hin. destruct Hin as ([i l] & E & Hin).
    simpl in E. inversion E; subst. clear E.
    apply enumerate_from_In in Hin. destruct Hin as [L Hn].
    rewrite Z.sub_0_r in Hn.
    rewrite nth_error_map in Hn.
    destruct (nth_error xs (Z.to_nat i)) as [item |] eqn:En;
      [| discriminate].
    exists item. split; [| now inversion Hn].
    rewrite <- (Z2Nat.id i) by lia. now apply seq_item_nth.
  - apply in_map_iff in Hin. destruct Hin as ([k' item] & E & Hin).
    simpl in E. inversion E; subst. clear E.
    exists item. split; [| reflexivity].
    rewrite map_map in N. simpl in N.
    now apply dict_item_unique.
Qed.

Lemma getitem_flattens_to_flat_slot_witness :
  exists item,
    TargetCollectionRest.__getitem__ (five 1) (KInt 3) = Got item /\
    flatten item = [Target 3%nat].
Proof.
  apply (@getitem_flattens_to_flat_slot target five_arg 1 (five 1)).
  - reflexivity.
  - repeat constructor; simpl; intuition discriminate.
  - simpl. tauto.
Defined.

(** X7.  [self[key]] on a list or tuple of [len] elements succeeds exactly
    for the integers from [-len] to [len - 1], the negative ones counting
    from the end, raises [IndexError] for the other integers and
    [TypeError] for a string; on a dict it raises [KeyError] for a key that
    is not among its keys. *)
Theorem getitem_bounds (T : Type) (c : target_collection T) :
  (forall kd xs, targets c = SSeq kd xs ->
     let len := Z.of_nat (List.length xs) in
     (forall i, 0 <= i < len ->
        TargetCollectionRest.__getitem__ c (KInt i) =
          match nth_error xs (Z.to_nat i) with
          | Some x => Got x
          | None => Fails LookupIndexError
          end /\
        nth_error xs (Z.to_nat i) <> None /\
        TargetCollectionRest.__getitem__ c (KInt (i - len)) =
        TargetCollectionRest.__getitem__ c (KInt i)) /\
     (forall i, i < - len \/ len <= i ->
        TargetCollectionRest.__getitem__ c (KInt i) =
        Fails LookupIndexError) /\
     (forall s,
        TargetCollectionRest.__getitem__ c (KStr s) = Fails LookupTypeError))
  /\
  (forall kvs k, targets c = SDict kvs ->
     ~ In k (map fst kvs) ->
     TargetCollectionRest.__getitem__ c k = Fails (LookupKeyError k)).
Proof.
  split.
  - intros kd xs E len. unfold TargetCollectionRest.__getitem__. rewrite E.
    split; [| split]; [| | reflexivity].
    + intros i Hi.
      assert (A : seq_item xs i =
                  match nth_error xs (Z.to_nat i) with
                  | Some x => Got x
                  | None => Fails LookupIndexError
                  end).
      { unfold seq_item. fold len.
        destruct (Z.ltb_spec i 0); [lia |].
        destruct (Z.ltb_spec i 0); [lia |].
        destruct (Z.leb_spec len i); [lia |]. reflexivity. }
      split; [exact A |]. split.
      * apply nth_error_Some. lia.
      * rewrite A. unfold seq_item. fold len.
        destruct (Z.ltb_spec (i - len) 0); [| lia].
        replace (i - len + len) with i by lia.
        destruct (Z.ltb_spec i 0); [lia |].
        destruct (Z.leb_spec len i); [lia |]. reflexivity.
    + intros i Hi. unfold seq_item. fold len.
      destruct (Z.ltb_spec i 0).
      * destruct (Z.ltb_spec (i + len) 0); [reflexivity |].
        destruct (Z.leb_spec len (i + len)); [reflexivity | lia].
      * destruct (Z.ltb_spec i 0); [lia |].
        destruct (Z.leb_spec len i); [reflexivity | lia].
  - intros kvs k E H. unfold TargetCollectionRest.__getitem__. rewrite E.
    unfold dict_item.
    destruct (find (fun kv => key_eqb (fst kv) k) kvs) as [kv |] eqn:F;
      [| reflexivity].
    apply find_some in F. destruct F as [Hin Heq].
    apply key_eqb_eq in Heq. exfalso. apply H. subst k.
    now apply in_map.
Qed.

Lemma getitem_bounds_witness :
  (TargetCollectionRest.__getitem__ (five 1) (KInt (4 - 5)) =
   TargetCollectionRest.__getitem__ (five 1) (KInt 4)) /\
  TargetCollectionRest.__getitem__ (five 1) (KInt 5) =
    Fails LookupIndexError /\
  TargetCollectionRest.__getitem__ xy_collection (KStr "z"%string) =
    Fails (LookupKeyError (KStr "z"%string)).
Proof.
  destruct (getitem_bounds (five 1)) as [S _].
  destruct (S KindList (map PTarget five_targets) eq_refl) as (A & B & _).
  split; [| split].
  - apply (A 4). simpl. lia.
  - apply B. simpl. lia.
  - eapply (proj2 (getitem_bounds xy_collection)); [reflexivity |].
    simpl. intuition discriminate.
Defined.

(** ** [iter_existing], [iter_missing] and [count] make the same scan *)

Lemma select_length {A : Type} (mask : list bool) (xs : list A) :
  List.length mask = List.length xs ->
  (List.length (select true mask xs) + List.length (select false mask xs)
   = List.length xs)%nat.
Proof.
  revert xs. induction mask as [| m mask IH]; intros [| x xs] H;
    simpl in *; try discriminate; [reflexivity |].
  injection H as H. specialize (IH _ H).
  destruct m; simpl; lia.
Qed.

Lemma select_map {A B : Type} (f : A -> B) b (mask : list bool)
  (xs : list A) :
  select b mask (map f xs) = map f (select b mask xs).
Proof.
  revert xs. induction mask as [| m mask IH]; intros [| x xs]; simpl;
    try reflexivity.
  destruct (Bool.eqb m b); simpl; now rewrite IH.
Qed.

Lemma select_In {A : Type} b (mask : list bool) (xs : list A) x :
  In x (select b mask xs) -> In x xs.
Proof.
  revert xs. induction mask as [| m mask IH]; intros [| y xs]; simpl;
    try tauto.
  destruct (Bool.eqb m b); simpl; intros H.
  - destruct H as [H | H]; [now left | right; now apply IH].
  - right. now apply IH.
Qed.

Section SameScan.

Variable T : Type.
Variable t_exists : T -> M bool.

Lemma any_missing_all_exist ts :
  forall w,
    TargetCollectionRest.any_missing t_exists ts w =
    (match fst (TargetCollection.all_exist t_exists ts w) with
     | Ok b => Ok (negb b)
     | Raise e => Raise e
     end,
     snd (TargetCollection.all_exist t_exists ts w)).
Proof.
  induction ts as [| t r IH]; intro w; simpl; [reflexivity |].
  unfold bind. destruct (t_exists t w) as [[b | e] w1]; [| reflexivity].
  destruct b; simpl; [apply IH | reflexivity].
Qed.

Lemma same_scan (slots : list (key * list T)) :
  forall n ks w,
    (exists mask w',
       List.length mask = List.length slots /\
       TargetCollectionRest.yielded (TargetCollection.all_exist t_exists)
         (map snd slots) w = (Ok (select true mask (map snd slots)), w') /\
       TargetCollectionRest.yielded
         (TargetCollectionRest.any_missing t_exists)
         (map snd slots) w = (Ok (select false mask (map snd slots)), w') /\
       TargetCollection.count_loop t_exists n ks slots w =
         (Ok (n + Z.of_nat (List.length (select true mask slots)),
              ks ++ map fst (select true mask slots)), w')) \/
    (exists e w',
       TargetCollectionRest.yielded (TargetCollection.all_exist t_exists)
         (map snd slots) w = (Raise e, w') /\
       TargetCollectionRest.yielded
         (TargetCollectionRest.any_missing t_exists)
         (map snd slots) w = (Raise e, w') /\
       TargetCollection.count_loop t_exists n ks slots w = (Raise e, w')).
Proof.
  induction slots as [| [k l] rest IH]; intros n ks w.
  - left. exists (@nil bool), w. simpl. rewrite Z.add_0_r, app_nil_r.
    repeat split; reflexivity.
  - simpl. unfold bind.
    rewrite (any_missing_all_exist l w).
    destruct (TargetCollection.all_exist t_exists l w) as [[b | e] w1];
      simpl.
    2:{ right. exists e, w1. repeat split; reflexivity. }
    destruct (IH (if b then n + 1 else n)
                 (if b then ks ++ [k] else ks) w1)
      as [(mask & w' & L & E1 & E2 & E3) | (e & w' & E1 & E2 & E3)].
    + left. exists (b :: mask), w'. rewrite E1, E2.
      cbn [List.length]. split; [now rewrite L |].
      destruct b; cbn [negb select Bool.eqb map fst snd List.length];
        rewrite E3, <- ?app_assoc; unfold ret;
        repeat split; do 3 f_equal; lia.
    + right. exists e, w'. rewrite E1, E2.
      destruct b; rewrite E3; repeat split; reflexivity.
Qed.

End SameScan.

(** X8.  Run to their ends from the same world, [iter_existing] and
    [iter_missing] make the same calls and split the slots between them:
    every slot is yielded by exactly one of the two, in slot order, or both
    raise the same exception. *)
Theorem iter_existing_missing_split (T : Type) (t_exists : T -> M bool)
  (c : target_collection T) (w : world) :
  snd (TargetCollectionRest.iter_existing t_exists c w) =
  snd (TargetCollectionRest.iter_missing t_exists c w) /\
  ((exists mask,
      List.length mask = List.length (TargetCollection._iter_flat c) /\
      run (TargetCollectionRest.iter_existing t_exists c) w =
        Ok (select true mask (TargetCollection._iter_flat c)) /\
      run (TargetCollectionRest.iter_missing t_exists c) w =
        Ok (select false mask (TargetCollection._iter_flat c))) \/
   (exists e,
      run (TargetCollectionRest.iter_existing t_exists c) w = Raise e /\
      run (TargetCollectionRest.iter_missing t_exists c) w = Raise e)).
Proof.
  unfold TargetCollectionRest.iter_existing,
    TargetCollectionRest.iter_missing, run.
  rewrite <- iter_flat_keys_snd.
  destruct (same_scan t_exists (TargetCollection._iter_flat_keys c) 0 [] w)
    as [(mask & w' & L & E1 & E2 & _) | (e & w' & E1 & E2 & _)];
    rewrite E1, E2; simpl; (split; [reflexivity |]).
  - left. exists mask. rewrite length_map. tauto.
  - right. exists e. tauto.
Qed.

(** X9.  [count(existing=True)] is the number of slots [iter_existing]
    yields from the same world, after the same calls; it raises when
    [iter_existing] does. *)
Theorem count_is_length_of_iter_existing (T : Type) (t_exists : T -> M bool)
  (c : target_collection T) (w : world) :
  snd (TargetCollection.count t_exists c true false w) =
  snd (TargetCollectionRest.iter_existing t_exists c w) /\
  run (TargetCollection.count t_exists c true false) w =
  match run (TargetCollectionRest.iter_existing t_exists c) w with
  | Ok slots => Ok (CountN (Z.of_nat (List.length slots)))
  | Raise e => Raise e
  end.
Proof.
  unfold TargetCollectionRest.iter_existing, TargetCollection.count, run.
  rewrite <- iter_flat_keys_snd. unfold bind.
  destruct (same_scan t_exists (TargetCollection._iter_flat_keys c) 0 [] w)
    as [(mask & w' & L & E1 & _ & E3) | (e & w' & E1 & _ & E3)];
    rewrite E1, E3; simpl; (split; [reflexivity |]).
  - now rewrite select_map, length_map.
  - reflexivity.
Qed.

Lemma select_length_le {A : Type} b (mask : list bool) (xs : list A) :
  (List.length (select b mask xs) <= List.length xs)%nat.
Proof.
  revert xs. induction mask as [| m mask IH]; intros [| x xs]; simpl;
    try lia.
  specialize (IH xs). destruct (Bool.eqb m b); simpl; lia.
Qed.

Lemma count_loop_selects (T : Type) (t_exists : T -> M bool)
  (c : target_collection T) (w : world) n ks :
  run (TargetCollection.count t_exists c true true) w
    = Ok (CountKeys n ks) ->
  exists mask,
    List.length mask =
      List.length (TargetCollection._iter_flat_keys c) /\
    n = Z.of_nat (List.length
                    (select true mask (TargetCollection._iter_flat_keys c)))
    /\
    ks = map fst (select true mask (TargetCollection._iter_flat_keys c)) /\
    forall existing keys_,
      run (TargetCollection.count t_exists c existing keys_) w =
      Ok (TargetCollection.count_report c existing keys_ n ks).
Proof.
  unfold run, TargetCollection.count, bind.
  destruct (same_scan t_exists (TargetCollection._iter_flat_keys c) 0 [] w)
    as [(mask & w' & L & _ & _ & E3) | (e & w' & _ & _ & E3)];
    rewrite E3; simpl; [| discriminate].
  intro H. injection H as <- <-.
  exists mask. repeat split; trivial.
Qed.

(** X10.  Whatever the targets answer, when [count(existing=True,
    keys=True)] of a constructed collection returns [(n, keys)], [n] is the
    length of [keys], it lies between 0 and [len(self)], every key returned
    is a key of the collection, and [count(existing=False)] from the same
    world returns [len(self) - n]. *)
Theorem count_is_consistent (T : Type) (t_exists : T -> M bool)
  (arg : init_arg T) (thr : Q) (c : target_collection T) (w : world)
  (n : Z) (ks : list key) :
  TargetCollection.__init__ arg thr = Ok c ->
  run (TargetCollection.count t_exists c true true) w
    = Ok (CountKeys n ks) ->
  n = Z.of_nat (List.length ks) /\
  0 <= n <= TargetCollection.__len__ c /\
  incl ks (TargetCollection.keys c) /\
  run (TargetCollection.count t_exists c false false) w =
    Ok (CountN (TargetCollection.__len__ c - n)).
Proof.
  intros Hinit H.
  destruct (count_loop_selects _ _ _ H) as (mask & L & -> & -> & R).
  split; [now rewrite length_map |]. split; [| split].
  - rewrite (init_len _ _ Hinit), <- iter_flat_keys_snd, length_map.
    pose proof (select_length_le true mask
                  (TargetCollection._iter_flat_keys c)). lia.
  - rewrite (init_keys _ _ Hinit). intros k Hin.
    apply in_map_iff in Hin. destruct Hin as (kv & <- & Hin).
    apply in_map. now apply select_In in Hin.
  - rewrite (R false false). reflexivity.
Qed.

Lemma count_is_consistent_witness :
  2 = Z.of_nat (List.length [KInt 1; KInt 3]) /\
  0 <= 2 <= TargetCollection.__len__ (five 1) /\
  incl [KInt 1; KInt 3] (TargetCollection.keys (five 1)) /\
  run (TargetCollection.count plain_exists (five 1) false false)
    (fresh odd_exist) = Ok (CountN (TargetCollection.__len__ (five 1) - 2)).
Proof.
  apply (@count_is_consistent target plain_exists five_arg 1 (five 1)
           (fresh odd_exist) 2 [KInt 1; KInt 3]); reflexivity.
Defined.

Lemma key_in_iff k ks : key_in k ks = true <-> In k ks.
Proof.
  unfold key_in. rewrite existsb_exists. split.
  - intros (x & Hin & E). apply key_eqb_eq in E. now subst.
  - intro H. exists k. split; [exact H | now apply key_eqb_eq].
Qed.

Lemma missing_keys_select (A : Type) (mask : list bool)
  (slots : list (key * A)) :
  NoDup (map fst slots) ->
  List.length mask = List.length slots ->
  filter (fun k => negb (key_in k (map fst (select true mask slots))))
    (map fst slots)
  = map fst (select false mask slots).
Proof.
  revert mask. induction slots as [| [k a] rest IH]; intros [| m mask] N L;
    simpl in *; try discriminate; [reflexivity |].
  injection L as L. inversion N as [| ? ? Hnot Hr]; subst.
  specialize (IH mask Hr L).
  assert (Hk : key_in k (map fst (select true mask rest)) = false).
  { destruct (key_in k (map fst (select true mask rest))) eqn:E;
      [| reflexivity].
    apply key_in_iff in E. exfalso. apply Hnot.
    apply in_map_iff in E. destruct E as (kv & <- & Hin).
    apply in_map. now apply select_In in Hin. }
  destruct m; simpl.
  - unfold key_in at 1. simpl.
    rewrite (proj2 (key_eqb_eq k k) eq_refl). simpl.
    rewrite <- IH. apply filter_ext_in. intros k' Hin.
    unfold key_in. simpl.
    destruct (key_eqb k' k) eqn:E; [| reflexivity].
    apply key_eqb_eq in E. subst k'. contradiction.
  - rewrite Hk. simpl. now rewrite IH.
Qed.

Lemma select_permutation {A : Type} (mask : list bool) (xs : list A) :
  List.length mask = List.length xs ->
  Permutation (select true mask xs ++ select false mask xs) xs.
Proof.
  revert xs. induction mask as [| m mask IH]; intros [| x xs] L;
    simpl in *; try discriminate; [constructor |].
  injection L as L. specialize (IH _ L). destruct m; simpl.
  - now constructor.
  - rewrite <- Permutation_middle. now constructor.
Qed.

(** X11.  In a constructed collection with distinct keys, the keys that
    [count(existing=False, keys=True)] returns are the keys that
    [count(existing=True, keys=True)] does not return from the same world:
    the two lists together are a permutation of [keys()], no key is in
    both, and the number returned with the missing keys is their number. *)
Theorem count_missing_keys_complement (T : Type) (t_exists : T -> M bool)
  (arg : init_arg T) (thr : Q) (c : target_collection T) (w : world)
  (n : Z) (ks : list key) :
  TargetCollection.__init__ arg thr = Ok c ->
  NoDup (TargetCollection.keys c) ->
  run (TargetCollection.count t_exists c true true) w
    = Ok (CountKeys n ks) ->
  exists ms,
    run (TargetCollection.count t_exists c false true) w =
      Ok (CountKeys (TargetCollection.__len__ c - n) ms) /\
    Z.of_nat (List.length ms) = TargetCollection.__len__ c - n /\
    Permutation (ks ++ ms) (TargetCollection.keys c) /\
    (forall k, In k ks -> ~ In k ms).
Proof.
  intros Hinit N H.
  destruct (count_loop_selects _ _ _ H) as (mask & L & -> & -> & R).
  set (slots := TargetCollection._iter_flat_keys c) in *.
  exists (map fst (select false mask slots)).
  assert (M : filter
                (fun k => negb (key_in k (map fst (select true mask slots))))
                (TargetCollection.keys c)
              = map fst (select false mask slots)).
  { rewrite (init_keys _ _ Hinit). fold slots.
    apply missing_keys_select; [| exact L].
    rewrite (init_keys _ _ Hinit) in N. exact N. }
  split; [| split; [| split]].
  - rewrite (R false true). unfold TargetCollection.count_report. simpl.
    now rewrite M.
  - rewrite (init_len _ _ Hinit), <- iter_flat_keys_snd. fold slots.
    rewrite !length_map.
    pose proof (select_length mask slots L). lia.
  - rewrite (init_keys _ _ Hinit). fold slots.
    rewrite <- map_app. apply Permutation_map.
    now apply select_permutation.
  - intros k Hin Hms. rewrite <- M in Hms.
    apply filter_In in Hms. destruct Hms as [_ Hms].
    apply negb_true_iff in Hms.
    apply key_in_iff in Hin. congruence.
Qed.

Lemma count_missing_keys_complement_witness :
  exists ms,
    run (TargetCollection.count plain_exists (five 1) false true)
      (fresh odd_exist) =
      Ok (CountKeys (TargetCollection.__len__ (five 1) - 2) ms) /\
    Z.of_nat (List.length ms) = TargetCollection.__len__ (five 1) - 2 /\
    Permutation ([KInt 1; KInt 3] ++ ms) (TargetCollection.keys (five 1)) /\
    (forall k, In k [KInt 1; KInt 3] -> ~ In k ms).
Proof.
  apply (@count_missing_keys_complement target plain_exists five_arg 1
           (five 1) (fresh odd_exist) 2 [KInt 1; KInt 3]).
  - reflexivity.
  - repeat constructor; simpl; intuition discriminate.
  - reflexivity.
Defined.

(** ** Bounds of the absolute threshold *)

Lemma abs_threshold_le_len {T : Type} (c : target_collection T) :
  (TargetCollection._abs_threshold c
     <= inject_Z (TargetCollection.__len__ c))%Q.
Proof.
  unfold TargetCollection._abs_threshold.
  assert (L : (0 <= inject_Z (TargetCollection.__len__ c))%Q).
  { change 0%Q with (inject_Z 0). rewrite <- Zle_Qle. apply len_nonneg. }
  destruct (Qlt_bool (threshold c) 0) eqn:N; [exact L |].
  apply Qlt_bool_false_iff in N.
  destruct (Qle_bool (threshold c) 1) eqn:O.
  - apply Qle_bool_iff in O.
    setoid_replace (inject_Z (TargetCollection.__len__ c))
      with (inject_Z (TargetCollection.__len__ c) * 1)%Q at 2 by ring.
    rewrite (Qmult_comm _ (threshold c)), (Qmult_comm _ 1).
    now apply Qmult_le_compat_r.
  - unfold py_min.
    destruct (Qlt_bool (py_max (threshold c) 0)
                (inject_Z (TargetCollection.__len__ c))) eqn:M.
    + apply Qlt_bool_iff in M. now apply Qlt_le_weak.
    + apply Qle_refl.
Qed.

(** X12.  The absolute threshold of any collection lies between 0 and
    [len(self)], whatever threshold was configured. *)
Theorem abs_threshold_bounds (T : Type) (c : target_collection T) :
  (0 <= TargetCollection._abs_threshold c)%Q /\
  (TargetCollection._abs_threshold c
     <= inject_Z (TargetCollection.__len__ c))%Q.
Proof.
  split; [apply abs_threshold_nonneg | apply abs_threshold_le_len].
Qed.

(** X13.  A collection without slots exists: for any threshold
    [exists()] returns true without asking any target. *)
Theorem empty_collection_exists (T : Type) (t_exists : T -> M bool)
  (c : target_collection T) (w : world) :
  TargetCollection.__len__ c = 0 ->
  TargetCollection.exists_ t_exists c w = (Ok true, w).
Proof.
  intro H. unfold TargetCollection.exists_.
  assert (Z0 : Qeq_bool (TargetCollection._abs_threshold c) 0 = true).
  { apply Qeq_bool_iff. apply Qle_antisym.
    - pose proof (abs_threshold_le_len c) as U. now rewrite H in U.
    - apply abs_threshold_nonneg. }
  now rewrite Z0.
Qed.

Lemma empty_collection_exists_witness :
  match constructed
          (TargetCollection.__init__ (FromObject (@PDict target [])) 7) with
  | Some c => TargetCollection.exists_ plain_exists c (fresh no_directory)
              = (Ok true, fresh no_directory)
  | None => False
  end.
Proof.
  simpl. apply empty_collection_exists. reflexivity.
Defined.

Lemma exists_run_pure (T : Type) (t_exists : T -> M bool)
  (arg : init_arg T) (thr : Q) (c : target_collection T)
  (rep : T -> bool) (w : world) :
  TargetCollection.__init__ arg thr = Ok c ->
  (forall t, In t (List.concat (TargetCollection._iter_flat c)) ->
     reports t_exists (store w) t (rep t)) ->
  run (TargetCollection.exists_ t_exists c) w =
    Ok (Qle_bool (TargetCollection._abs_threshold c)
          (inject_Z (full_slots rep c))).
Proof.
  intros Hinit Hpure.
  unfold run, TargetCollection.exists_.
  destruct (Qeq_bool (TargetCollection._abs_threshold c) 0) eqn:Z0.
  - simpl. apply Qeq_bool_iff in Z0.
    assert (R : Qle_bool (TargetCollection._abs_threshold c)
                  (inject_Z (full_slots rep c)) = true).
    { apply Qle_bool_iff. rewrite Z0. change 0%Q with (inject_Z 0).
      rewrite <- Zle_Qle. apply full_among_bounds. }
    now rewrite R.
  - destruct (@exists_loop_pure T t_exists (store w) rep
                (TargetCollection._abs_threshold c)
                (TargetCollection.__len__ c)
                (TargetCollection._iter_flat c) Hpure 0 0 w eq_refl)
      as (w' & E & _).
    + rewrite (init_len _ _ Hinit). lia.
    + destruct (Qlt_le_dec 0 (TargetCollection._abs_threshold c))
        as [P | N]; [exact P |].
      exfalso. apply Qeq_bool_neq in Z0. apply Z0.
      apply Qle_antisym; [exact N | apply abs_threshold_nonneg].
    + rewrite E. reflexivity.
Qed.

Lemma full_among_all {T : Type} (rep : T -> bool) (slots : list (list T)) :
  (forall t, In t (List.concat slots) -> rep t = true) ->
  full_among rep slots = Z.of_nat (List.length slots).
Proof.
  induction slots as [| l r IH]; intro H; [reflexivity |].
  rewrite full_among_cons.
  assert (F : forallb rep l = true).
  { apply forallb_forall. intros t Hin. apply H. simpl.
    apply in_or_app. now left. }
  rewrite F, IH; [cbn [List.length]; lia |].
  intros t Hin. apply H. simpl. apply in_or_app. now right.
Qed.

(** X14.  When every target of a constructed collection reports that it
    exists, [exists()] returns true for every threshold. *)
Theorem complete_collection_exists (T : Type) (t_exists : T -> M bool)
  (arg : init_arg T) (thr : Q) (c : target_collection T) (w : world) :
  TargetCollection.__init__ arg thr = Ok c ->
  (forall t, In t (_flat_target_list c) ->
     reports t_exists (store w) t true) ->
  run (TargetCollection.exists_ t_exists c) w = Ok true.
Proof.
  intros Hinit Hpure.
  rewrite (init_flat_list _ _ Hinit) in Hpure.
  rewrite (@exists_run_pure T t_exists arg thr c (fun _ => true) w Hinit
             Hpure).
  unfold full_slots. rewrite full_among_all by reflexivity.
  rewrite <- (init_len _ _ Hinit).
  f_equal. apply Qle_bool_iff, abs_threshold_le_len.
Qed.

Lemma complete_collection_exists_witness :
  run (TargetCollection.exists_ plain_exists (five (3 # 2)))
    (fresh no_directory) = Ok true.
Proof.
  apply (@complete_collection_exists target plain_exists five_arg (3 # 2)
           (five (3 # 2)) (fresh no_directory)).
  - reflexivity.
  - intros t Hin w Hw. simpl in Hin. unfold plain_exists.
    destruct Hin as [<- | [<- | [<- | [<- | [<- | []]]]]]; simpl;
      rewrite handle_exists_run, Hw;
      (eexists; split; reflexivity).
Defined.

(** ** Early stopping only cuts the scan short *)

Lemma appending_ret {A : Type} (a : A) : appending (ret a).
Proof. intro w. exists []. rewrite app_nil_r. now destruct w. Qed.

Lemma appending_bind {A B : Type} (m : M A) (f : A -> M B) :
  appending m -> (forall a, appending (f a)) -> appending (bind m f).
Proof.
  intros Hm Hf w. unfold bind.
  destruct (Hm w) as (evs & E).
  destruct (m w) as [[a | e] w1]; simpl in E; subst w1.
  - destruct (Hf a (MkWorld (store w) (log w ++ evs))) as (evs' & E').
    exists (evs ++ evs'). rewrite E'. simpl. now rewrite app_assoc.
  - now exists evs.
Qed.

Lemma appending_plain_exists t : appending (plain_exists t).
Proof.
  intro w. unfold plain_exists. destruct t as [h | h d b | s].
  - exists [EvExists h]. reflexivity.
  - exists [EvExists h]. reflexivity.
  - destruct (sibling_exists_trace s None w) as (evs & E & _).
    exists (EvDirExists (dir s) :: evs). exact E.
Qed.

Lemma appending_all_exist ts :
  appending (TargetCollection.all_exist plain_exists ts).
Proof.
  induction ts as [| t r IH]; simpl; [apply appending_ret |].
  apply appending_bind; [apply appending_plain_exists |].
  intros []; [exact IH | apply appending_ret].
Qed.

Lemma appending_count_loop slots :
  forall n ks,
    appending (TargetCollection.count_loop plain_exists n ks slots).
Proof.
  induction slots as [| [k l] rest IH]; intros n ks; simpl;
    [apply appending_ret |].
  apply appending_bind; [apply appending_all_exist |].
  intros []; apply IH.
Qed.

Lemma exists_loop_prefix threshold len (slots : list (key * list target)) :
  forall i n m ks w,
  exists p q,
    log (snd (TargetCollection.exists_loop plain_exists threshold len i n
                (map snd slots) w)) = log w ++ p /\
    log (snd (TargetCollection.count_loop plain_exists m ks slots w))
      = log w ++ p ++ q.
Proof.
  induction slots as [| [k l] rest IH]; intros i n m ks w.
  - exists [], []. simpl. now rewrite app_nil_r.
  - simpl. unfold bind.
    destruct (appending_all_exist l w) as (e1 & E1).
    destruct (TargetCollection.all_exist plain_exists l w) as [[b | e] w1];
      simpl in E1; subst w1.
    2:{ exists e1, []. simpl. now rewrite app_nil_r. }
    set (w1 := MkWorld (store w) (log w ++ e1)).
    set (m' := if b then m + 1 else m).
    set (ks' := if b then ks ++ [k] else ks).
    assert (C : TargetCollection.count_loop plain_exists m' ks' rest w1 =
                (if b
                 then TargetCollection.count_loop plain_exists (m + 1)
                        (ks ++ [k]) rest
                 else TargetCollection.count_loop plain_exists m ks rest)
                  w1).
    { unfold m', ks'. now destruct b. }
    rewrite <- C.
    assert (Stop : forall r : bool,
              exists p q,
                log (snd (ret r w1)) = log w ++ p /\
                log (snd (TargetCollection.count_loop plain_exists m' ks'
                            rest w1)) = log w ++ p ++ q).
    { intro r.
      destruct (appending_count_loop rest m' ks' w1) as (q & Eq).
      exists e1, q. rewrite Eq. simpl. now rewrite app_assoc. }
    destruct (b && Qle_bool threshold
                     (inject_Z (if b then n + 1 else n))); [apply Stop |].
    destruct (Qlt_bool _ threshold); [apply Stop |].
    destruct (IH (i + 1) (if b then n + 1 else n) m' ks' w1)
      as (p & q & A & B).
    exists (e1 ++ p), q. rewrite A, B. simpl.
    now rewrite <- !app_assoc.
Qed.

(** X15.  [exists()] makes no storage call that [count()] would not make:
    from the same world, the log of [exists()] is a prefix of the log of
    [count()], so early stopping only cuts the scan of [count] short. *)
Theorem exists_log_is_prefix_of_count_log (c : target_collection target)
  (existing keys_ : bool) (w : world) :
  exists p q,
    trace (TargetCollection.exists_ plain_exists c) w = log w ++ p /\
    trace (TargetCollection.count plain_exists c existing keys_) w
      = log w ++ p ++ q.
Proof.
  unfold trace, TargetCollection.exists_, TargetCollection.count.
  assert (Cw : forall w0,
            log (snd (bind
                   (TargetCollection.count_loop plain_exists 0 []
                      (TargetCollection._iter_flat_keys c))
                   (fun r => ret (TargetCollection.count_report c existing
                                    keys_ (fst r) (snd r))) w0))
            = log (snd (TargetCollection.count_loop plain_exists 0 []
                          (TargetCollection._iter_flat_keys c) w0))).
  { intro w0. unfold bind.
    now destruct (TargetCollection.count_loop plain_exists 0 []
                    (TargetCollection._iter_flat_keys c) w0) as [[a | e] w']. }
  rewrite Cw.
  destruct (Qeq_bool (TargetCollection._abs_threshold c) 0).
  - destruct (appending_count_loop (TargetCollection._iter_flat_keys c)
                0 [] w) as (q & Eq).
    exists [], q. rewrite Eq. simpl. now rewrite app_nil_r.
  - rewrite <- iter_flat_keys_snd. apply exists_loop_prefix.
Qed.

(** ** The constructor of [SiblingFileCollection] *)

(** X16.  A [SiblingFileCollection] that was constructed wraps the
    collection [TargetCollection.__init__] builds from the same argument,
    every flat target of it is a file or a sibling collection, and its
    directory comes from the first flat target alone.  When a flat target
    is neither, the constructor raises [TypeError], wherever that target
    stands. *)
Theorem sibling_init_checks_targets (arg : init_arg target) (thr : Q) :
  (forall s,
     SiblingFileCollection.__init__ arg thr = Ok s ->
     TargetCollection.__init__ arg thr = Ok (base s) /\
     forallb SiblingFileCollection.is_file_or_sibling
       (_flat_target_list (base s)) = true /\
     exists first rest,
       _flat_target_list (base s) = first :: rest /\
       match first with
       | FileSystemTarget _ parent _ => dir s = parent
       | Sibling s' => dir s = dir s'
       | Target _ => False
       end) /\
  (forall c h,
     TargetCollection.__init__ arg thr = Ok c ->
     In (Target h) (_flat_target_list c) ->
     SiblingFileCollection.__init__ arg thr = Raise TypeError).
Proof.
  unfold SiblingFileCollection.__init__. split.
  - intros s.
    destruct (TargetCollection.__init__ arg thr) as [c | e];
      [| discriminate].
    destruct (forallb SiblingFileCollection.is_file_or_sibling
                (_flat_target_list c)) eqn:F; simpl; [| discriminate].
    destruct (_flat_target_list c) as [| first rest] eqn:E; simpl;
      [discriminate |].
    destruct first as [h | h parent b | s']; intro H; inversion H; subst;
      simpl; rewrite E; (split; [reflexivity |]); (split; [exact F |]);
      eexists _, rest; split; reflexivity.
  - intros c h -> Hin.
    assert (F : forallb SiblingFileCollection.is_file_or_sibling
                  (_flat_target_list c) = false).
    { destruct (forallb SiblingFileCollection.is_file_or_sibling
                  (_flat_target_list c)) eqn:F; [| reflexivity].
      rewrite forallb_forall in F. now specialize (F _ Hin). }
    now rewrite F.
Qed.

Lemma sibling_init_checks_targets_witness :
  (TargetCollection.__init__ abc_arg 1 = Ok (base (abc 1)) /\
   forallb SiblingFileCollection.is_file_or_sibling
     (_flat_target_list (base (abc 1))) = true /\
   exists first rest,
     _flat_target_list (base (abc 1)) = first :: rest /\
     match first with
     | FileSystemTarget _ parent _ => dir (abc 1) = parent
     | Sibling s' => dir (abc 1) = dir s'
     | Target _ => False
     end) /\
  SiblingFileCollection.__init__ five_arg 1 = Raise TypeError.
Proof.
  split.
  - apply (proj1 (sibling_init_checks_targets abc_arg 1) (abc 1)).
    reflexivity.
  - apply (proj2 (sibling_init_checks_targets five_arg 1) (five 1) 4%nat).
    + reflexivity.
    + simpl. tauto.
Defined.

(** ** A sibling collection of files *)

Section FilesOnly.

Variable nested_exists : target -> list string -> M bool.
Variable basenames : list string.

Lemma slot_present_of_files ts w :
  forallb is_file ts = true ->
  slot_present nested_exists basenames ts w =
  (Ok (forallb (listed basenames) ts), w).
Proof.
  induction ts as [| t r IH]; simpl; [reflexivity |].
  destruct t as [h | h d b | s]; simpl; try discriminate.
  intro H. destruct (basename_in b basenames); simpl;
    [now apply IH | reflexivity].
Qed.

Lemma sibling_exists_loop_files threshold len slots :
  forallb (forallb is_file) slots = true ->
  forall i n w,
    len = i + Z.of_nat (List.length slots) ->
    (inject_Z n < threshold)%Q ->
    sibling_exists_loop nested_exists basenames (fun x => x) threshold len
      i n slots w =
    (Ok (Qle_bool threshold
           (inject_Z (n + full_among (listed basenames) slots))), w).
Proof.
  induction slots as [| l rest IH]; intros H i n w Hlen Hn.
  - simpl. unfold full_among. simpl. rewrite Z.add_0_r.
    apply Qle_bool_false_iff in Hn. now rewrite Hn.
  - simpl in H. apply andb_true_iff in H. destruct H as [Hl Hrest].
    cbn [sibling_exists_loop].
    erewrite bind_ok by (apply slot_present_of_files; exact Hl).
    rewrite full_among_cons.
    pose proof (full_among_bounds (listed basenames) rest) as [B0 B1].
    cbn [List.length] in Hlen.
    set (b := forallb (listed basenames) l) in *.
    set (n' := if b then n + 1 else n).
    assert (En : n + ((if b then 1 else 0)
                      + full_among (listed basenames) rest) =
                 n' + full_among (listed basenames) rest).
    { unfold n'. destruct b; lia. }
    rewrite En.
    destruct (Qle_bool threshold (inject_Z n')) eqn:Hit.
    + apply Qle_bool_iff in Hit.
      assert (R : Qle_bool threshold
                    (inject_Z (n' + full_among (listed basenames) rest))
                  = true).
      { apply Qle_bool_iff. eapply Qle_trans; [exact Hit |].
        rewrite <- Zle_Qle. lia. }
      now rewrite R.
    + apply Qle_bool_false_iff in Hit.
      destruct (Qlt_bool (inject_Z (n' + (len - i - 1))) threshold) eqn:Low.
      * apply Qlt_bool_iff in Low.
        assert (R : Qle_bool threshold
                      (inject_Z (n' + full_among (listed basenames) rest))
                    = false).
        { apply Qle_bool_false_iff.
          eapply Qle_lt_trans; [| exact Low].
          rewrite <- Zle_Qle. lia. }
        now rewrite R.
      * apply IH; trivial. lia.
Qed.

End FilesOnly.

Lemma sibling_count_loop_files basenames (slots : list (key * list target)) :
  forallb (forallb is_file) (map snd slots) = true ->
  forall n ks w,
    sibling_count_loop basenames n ks slots w =
    (Ok (n + full_among (listed basenames) (map snd slots),
         ks ++ map fst
                 (filter (fun kv => forallb (listed basenames) (snd kv))
                    slots)), w).
Proof.
  induction slots as [| [k l] rest IH]; intros H n ks w.
  - simpl. unfold full_among. simpl. now rewrite Z.add_0_r, app_nil_r.
  - simpl in H. apply andb_true_iff in H. destruct H as [Hl Hrest].
    cbn [sibling_count_loop map snd filter].
    erewrite bind_ok by (apply slot_present_of_files; exact Hl).
    rewrite full_among_cons.
    destruct (forallb (listed basenames) l); rewrite (IH Hrest).
    + rewrite <- app_assoc, Z.add_assoc. reflexivity.
    + reflexivity.
Qed.

Lemma forallb_concat {A : Type} (p : A -> bool) (ls : list (list A)) :
  forallb p (List.concat ls) = forallb (forallb p) ls.
Proof.
  induction ls as [| l r IH]; simpl; [reflexivity |].
  now rewrite forallb_app, IH.
Qed.

Lemma sibling_init_base (arg : init_arg target) (thr : Q)
  (s : sibling_file_collection) :
  SiblingFileCollection.__init__ arg thr = Ok s ->
  TargetCollection.__init__ arg thr = Ok (base s).
Proof.
  unfold SiblingFileCollection.__init__.
  destruct (TargetCollection.__init__ arg thr) as [c | e];
    [| discriminate].
  destruct (negb _); [discriminate |].
  destruct (nth_error _ _) as [[h | h p b | s'] |]; intro H;
    inversion H; reflexivity.
Qed.

Lemma sibling_files_exists_run (arg : init_arg target) (thr : Q)
  (s : sibling_file_collection) (names : list string) (w : world) :
  TargetCollection.__init__ arg thr = Ok (base s) ->
  forallb (forallb is_file) (TargetCollection._iter_flat (base s)) = true ->
  st_dir_exists (store w) (dir s) = Ok true ->
  st_listdir (store w) (dir s) = Ok names ->
  SiblingFileCollection.exists_ s None w =
  (Ok (Qle_bool (TargetCollection._abs_threshold (base s))
         (inject_Z (full_slots (listed names) (base s)))),
   MkWorld (store w)
     (log w ++
      (if Qeq_bool (TargetCollection._abs_threshold (base s)) 0
       then [EvDirExists (dir s)]
       else [EvDirExists (dir s); EvListdir (dir s)]))).
Proof.
  intros Hbase Hfiles Hd Hl.
  unfold SiblingFileCollection.exists_. simpl.
  rewrite sibling_exists_iter_flat. cbv zeta.
  erewrite bind_ok by (apply dir_exists_as; exact Hd). simpl.
  destruct (Qeq_bool (TargetCollection._abs_threshold (base s)) 0) eqn:Z0.
  - apply Qeq_bool_iff in Z0.
    assert (R : Qle_bool (TargetCollection._abs_threshold (base s))
                  (inject_Z (full_slots (listed names) (base s))) = true).
    { apply Qle_bool_iff. rewrite Z0. change 0%Q with (inject_Z 0).
      rewrite <- Zle_Qle. apply full_among_bounds. }
    now rewrite R.
  - erewrite bind_ok by (apply dir_listdir_as; exact Hl). simpl.
    rewrite sibling_exists_loop_files; trivial.
    + simpl. now rewrite <- app_assoc.
    + rewrite (init_len _ _ Hbase). lia.
    + destruct (Qlt_le_dec 0 (TargetCollection._abs_threshold (base s)))
        as [P | N]; [exact P |].
      exfalso. apply Qeq_bool_neq in Z0. apply Z0.
      apply Qle_antisym; [exact N | apply abs_threshold_nonneg].
Qed.

Lemma sibling_files_exists_given (arg : init_arg target) (thr : Q)
  (s : sibling_file_collection) (names : list string) (w : world) :
  TargetCollection.__init__ arg thr = Ok (base s) ->
  forallb (forallb is_file) (TargetCollection._iter_flat (base s)) = true ->
  st_dir_exists (store w) (dir s) = Ok true ->
  run (SiblingFileCollection.exists_ s (Some names)) w =
  Ok (Qle_bool (TargetCollection._abs_threshold (base s))
        (inject_Z (full_slots (listed names) (base s)))).
Proof.
  intros Hbase Hfiles Hd.
  unfold run, SiblingFileCollection.exists_. simpl.
  rewrite sibling_exists_iter_flat. cbv zeta.
  erewrite bind_ok by (apply dir_exists_as; exact Hd). simpl.
  destruct (Qeq_bool (TargetCollection._abs_threshold (base s)) 0) eqn:Z0.
  - apply Qeq_bool_iff in Z0. simpl. f_equal. symmetry.
    apply Qle_bool_iff. rewrite Z0. change 0%Q with (inject_Z 0).
    rewrite <- Zle_Qle. apply full_among_bounds.
  - unfold bind, ret.
    rewrite sibling_exists_loop_files; trivial.
    + rewrite (init_len _ _ Hbase). lia.
    + destruct (Qlt_le_dec 0 (TargetCollection._abs_threshold (base s)))
        as [P | N]; [exact P |].
      exfalso. apply Qeq_bool_neq in Z0. apply Z0.
      apply Qle_antisym; [exact N | apply abs_threshold_nonneg].
Qed.

Lemma sibling_files_count_run (s : sibling_file_collection)
  (names : list string) (basenames : option (list string)) (w : world) :
  forallb (forallb is_file) (TargetCollection._iter_flat (base s)) = true ->
  st_dir_exists (store w) (dir s) = Ok true ->
  match basenames with
  | Some b => b = names
  | None => st_listdir (store w) (dir s) = Ok names
  end ->
  run (SiblingFileCollection.count s true false basenames) w =
  Ok (CountN (full_slots (listed names) (base s))).
Proof.
  intros Hfiles Hd Hb.
  unfold run, SiblingFileCollection.count.
  erewrite bind_ok by (apply dir_exists_as; exact Hd). simpl.
  destruct basenames as [b |].
  - subst b. unfold bind at 1. unfold ret at 1.
    erewrite bind_ok
      by (apply sibling_count_loop_files; now rewrite iter_flat_keys_snd).
    simpl. now rewrite iter_flat_keys_snd.
  - erewrite bind_ok by (apply dir_listdir_as; exact Hb). simpl.
    erewrite bind_ok
      by (apply sibling_count_loop_files; now rewrite iter_flat_keys_snd).
    simpl. now rewrite iter_flat_keys_snd.
Qed.

(** C3.  [SiblingFileCollection.exists] and [count] never ask a target
    whether it exists: a file counts as present exactly when its basename
    is in the listing, so for a collection of files in an existing
    directory [exists()] is true exactly when the number of slots whose
    basenames are all listed reaches the absolute threshold, and
    [count(existing=True)] is that number, whatever the files themselves
    would answer.  With the listing [a.txt], [c.txt], three slots holding
    [a.txt], [b.txt] and [c.txt] and the threshold 1.0, [exists()] returns
    false and [count(existing=True)] returns 2; with the threshold 0.5,
    [exists()] returns true. *)
Theorem sibling_presence_is_basename_membership :
  (forall (s : sibling_file_collection) basenames w,
     exists evs,
       trace (SiblingFileCollection.exists_ s basenames) w = log w ++ evs /\
       Forall (fun e => is_target_probe e = false) evs) /\
  (forall (s : sibling_file_collection) existing keys_ basenames w,
     exists evs,
       trace (SiblingFileCollection.count s existing keys_ basenames) w
         = log w ++ evs /\
       Forall (fun e => is_target_probe e = false) evs) /\
  (forall nested_exists basenames
          (files : list (handle * dirname * string)) w,
     slot_present nested_exists basenames
       (map (fun f => FileSystemTarget (fst (fst f)) (snd (fst f)) (snd f))
          files) w =
     (Ok (forallb (fun f => basename_in (snd f) basenames) files), w)) /\
  (forall nested_exists basenames h d b rest w,
     slot_present nested_exists basenames (FileSystemTarget h d b :: rest) w
     = if basename_in b basenames
       then slot_present nested_exists basenames rest w
       else (Ok false, w)) /\
  (forall (arg : init_arg target) (thr : Q) (s : sibling_file_collection)
          (names : list string) (basenames : option (list string)) w,
     SiblingFileCollection.__init__ arg thr = Ok s ->
     forallb is_file (_flat_target_list (base s)) = true ->
     st_dir_exists (store w) (dir s) = Ok true ->
     match basenames with
     | Some b => b = names
     | None => st_listdir (store w) (dir s) = Ok names
     end ->
     run (SiblingFileCollection.exists_ s basenames) w =
       Ok (Qle_bool (TargetCollection._abs_threshold (base s))
             (inject_Z (full_slots (listed names) (base s)))) /\
     run (SiblingFileCollection.count s true false basenames) w =
       Ok (CountN (full_slots (listed names) (base s)))) /\
  SiblingFileCollection.__init__ abc_arg 1 = Ok (abc 1) /\
  (forall w,
     st_dir_exists (store w) "/data"%string = Ok true ->
     st_listdir (store w) "/data"%string = Ok ["a.txt"; "c.txt"]%string ->
     run (SiblingFileCollection.exists_ (abc 1) None) w = Ok false /\
     run (SiblingFileCollection.count (abc 1) true false None) w
       = Ok (CountN 2) /\
     run (SiblingFileCollection.exists_ (abc (1 # 2)) None) w = Ok true).
Proof.
  split; [| split; [| split; [| split; [| split; [| split]]]]].
  - intros s basenames w. unfold trace.
    destruct (sibling_exists_trace s basenames w) as (evs & E & F).
    exists (EvDirExists (dir s) :: evs). rewrite E. split; [reflexivity |].
    constructor; [reflexivity | exact F].
  - intros s existing keys_ basenames w. unfold trace.
    destruct (quiet_sibling_count s existing keys_ basenames w)
      as (evs & E & F).
    exists evs. now rewrite E.
  - apply slot_present_files.
  - intros nested_exists basenames h d b rest w. simpl.
    now destruct (basename_in b basenames).
  - intros arg thr s names basenames w Hinit Hfiles Hd Hb.
    pose proof (sibling_init_base _ _ Hinit) as Hbase.
    rewrite (init_flat_list _ _ Hbase), forallb_concat in Hfiles.
    split; [| now apply sibling_files_count_run].
    destruct basenames as [b |].
    + subst b. now apply (@sibling_files_exists_given arg thr).
    + unfold run.
      now rewrite (@sibling_files_exists_run arg thr s names w Hbase Hfiles
                     Hd Hb).
  - reflexivity.
  - intros w Hd Hl. split; [| split].
    + unfold run, SiblingFileCollection.exists_. simpl.
      unfold sibling_exists.
      erewrite bind_ok by (apply dir_exists_as; eassumption). simpl.
      erewrite bind_ok by (apply dir_listdir_as; eassumption). reflexivity.
    + unfold run, SiblingFileCollection.count.
      erewrite bind_ok by (apply dir_exists_as; eassumption). simpl.
      erewrite bind_ok by (apply dir_listdir_as; eassumption). reflexivity.
    + unfold run, SiblingFileCollection.exists_. simpl.
      unfold sibling_exists.
      erewrite bind_ok by (apply dir_exists_as; eassumption). simpl.
      erewrite bind_ok by (apply dir_listdir_as; eassumption). reflexivity.
Qed.

Lemma sibling_presence_is_basename_membership_witness :
  (run (SiblingFileCollection.exists_ (abc (1 # 2))
          (Some ["a.txt"; "c.txt"]%string)) (fresh listing_a_c) =
     Ok (Qle_bool (TargetCollection._abs_threshold (base (abc (1 # 2))))
           (inject_Z
              (full_slots (listed ["a.txt"; "c.txt"]%string)
                 (base (abc (1 # 2)))))) /\
   run (SiblingFileCollection.count (abc (1 # 2)) true false
          (Some ["a.txt"; "c.txt"]%string)) (fresh listing_a_c) =
     Ok (CountN (full_slots (listed ["a.txt"; "c.txt"]%string)
                   (base (abc (1 # 2)))))) /\
  (run (SiblingFileCollection.exists_ (abc 1) None) (fresh listing_a_c)
     = Ok false /\
   run (SiblingFileCollection.count (abc 1) true false None)
     (fresh listing_a_c) = Ok (CountN 2) /\
   run (SiblingFileCollection.exists_ (abc (1 # 2)) None)
     (fresh listing_a_c) = Ok true).
Proof.
  destruct sibling_presence_is_basename_membership
    as (_ & _ & _ & _ & G & _ & H).
  split.
  - apply (G abc_arg (1 # 2) (abc (1 # 2)) ["a.txt"; "c.txt"]%string
             (Some ["a.txt"; "c.txt"]%string) (fresh listing_a_c));
      reflexivity.
  - apply (H (fresh listing_a_c)); reflexivity.
Defined.

(** X17.  For a constructed [SiblingFileCollection] of files whose
    directory exists, [exists()] returns true exactly when the number of
    slots whose basenames are all in the listing is at least the absolute
    threshold, this number is what [count(existing=True)] returns, and
    either call makes two storage calls: the directory probe and one
    listing (the listing is skipped by [exists()] when the absolute
    threshold is 0). *)
Theorem sibling_of_files_exists_iff_listed (arg : init_arg target) (thr : Q)
  (s : sibling_file_collection) (names : list string) (w : world) :
  SiblingFileCollection.__init__ arg thr = Ok s ->
  forallb is_file (_flat_target_list (base s)) = true ->
  st_dir_exists (store w) (dir s) = Ok true ->
  st_listdir (store w) (dir s) = Ok names ->
  let n := full_slots (listed names) (base s) in
  run (SiblingFileCollection.exists_ s None) w =
    Ok (Qle_bool (TargetCollection._abs_threshold (base s)) (inject_Z n)) /\
  SiblingFileCollection.count s true false None w =
    (Ok (CountN n),
     MkWorld (store w)
       (log w ++ [EvDirExists (dir s); EvListdir (dir s)])) /\
  trace (SiblingFileCollection.exists_ s None) w =
    log w ++
    (if Qeq_bool (TargetCollection._abs_threshold (base s)) 0
     then [EvDirExists (dir s)]
     else [EvDirExists (dir s); EvListdir (dir s)]).
Proof.
  intros Hinit Hfiles Hd Hl n.
  pose proof (sibling_init_base _ _ Hinit) as Hbase.
  rewrite (init_flat_list _ _ Hbase), forallb_concat in Hfiles.
  pose proof (@sibling_files_exists_run arg thr s names w Hbase Hfiles Hd
                Hl) as E.
  split; [unfold run; now rewrite E |].
  split; [| unfold trace; now rewrite E].
  unfold SiblingFileCollection.count.
  erewrite bind_ok by (apply dir_exists_as; exact Hd). simpl.
  erewrite bind_ok by (apply dir_listdir_as; exact Hl). simpl.
  erewrite bind_ok
    by (apply sibling_count_loop_files; now rewrite iter_flat_keys_snd).
  simpl. rewrite iter_flat_keys_snd, <- app_assoc. reflexivity.
Qed.

Lemma sibling_of_files_exists_iff_listed_witness :
  run (SiblingFileCollection.exists_ (abc (1 # 2)) None) (fresh listing_a_c)
    = Ok true /\
  SiblingFileCollection.count (abc (1 # 2)) true false None
    (fresh listing_a_c) =
    (Ok (CountN 2),
     MkWorld listing_a_c
       ([] ++ [EvDirExists "/data"%string; EvListdir "/data"%string])) /\
  trace (SiblingFileCollection.exists_ (abc (1 # 2)) None)
    (fresh listing_a_c) =
    [] ++ [EvDirExists "/data"%string; EvListdir "/data"%string].
Proof.
  apply (@sibling_of_files_exists_iff_listed abc_arg (1 # 2) (abc (1 # 2))
           ["a.txt"; "c.txt"]%string (fresh listing_a_c)); reflexivity.
Defined.

(** X18.  The listing answers as the files would: for a constructed
    [SiblingFileCollection] of files in an existing directory, when every
    file reports that it exists exactly if its basename is in the listing,
    [SiblingFileCollection.exists] returns what [TargetCollection.exists]
    returns by asking the files one by one. *)
Theorem sibling_exists_agrees_with_probing (arg : init_arg target) (thr : Q)
  (s : sibling_file_collection) (names : list string) (w : world) :
  SiblingFileCollection.__init__ arg thr = Ok s ->
  forallb is_file (_flat_target_list (base s)) = true ->
  st_dir_exists (store w) (dir s) = Ok true ->
  st_listdir (store w) (dir s) = Ok names ->
  (forall h d b,
     In (FileSystemTarget h d b) (_flat_target_list (base s)) ->
     st_exists (store w) h = Ok (basename_in b names)) ->
  run (SiblingFileCollection.exists_ s None) w =
  run (TargetCollection.exists_ plain_exists (base s)) w.
Proof.
  intros Hinit Hfiles Hd Hl Hagree.
  pose proof (sibling_init_base _ _ Hinit) as Hbase.
  rewrite (init_flat_list _ _ Hbase) in Hfiles, Hagree.
  assert (Hpure : forall t,
            In t (List.concat (TargetCollection._iter_flat (base s))) ->
            reports plain_exists (store w) t (listed names t)).
  { intros t Hin w' Hw'.
    rewrite forallb_forall in Hfiles. specialize (Hfiles t Hin).
    destruct t as [h | h d b | s']; try discriminate.
    unfold plain_exists. simpl. rewrite handle_exists_run, Hw'.
    rewrite (Hagree h d b Hin). eexists. split; reflexivity. }
  rewrite (@exists_run_pure target plain_exists arg thr (base s)
             (listed names) w Hbase Hpure).
  rewrite forallb_concat in Hfiles.
  unfold run.
  now rewrite (@sibling_files_exists_run arg thr s names w Hbase Hfiles Hd
                 Hl).
Qed.

Lemma sibling_exists_agrees_with_probing_witness :
  run (SiblingFileCollection.exists_ (abc (1 # 2)) None) (fresh a_c_on_disk)
  = run (TargetCollection.exists_ plain_exists (base (abc (1 # 2))))
      (fresh a_c_on_disk).
Proof.
  apply (@sibling_exists_agrees_with_probing abc_arg (1 # 2) (abc (1 # 2))
           ["a.txt"; "c.txt"]%string (fresh a_c_on_disk));
    try reflexivity.
  intros h d b Hin. simpl in Hin.
  destruct Hin as [E | [E | [E | []]]]; inversion E; reflexivity.
Defined.

(** ** At most one listing *)

Lemma lists_nothing_ret {A : Type} (a : A) : lists_nothing (ret a).
Proof. intro w. exists []. rewrite app_nil_r. now destruct w. Qed.

Lemma lists_nothing_raise {A : Type} (e : exn) :
  lists_nothing (@raise A e).
Proof. intro w. exists []. rewrite app_nil_r. now destruct w. Qed.

Lemma lists_nothing_bind {A B : Type} (m : M A) (f : A -> M B) :
  lists_nothing m -> (forall a, lists_nothing (f a)) ->
  lists_nothing (bind m f).
Proof.
  intros Hm Hf w. unfold bind.
  destruct (Hm w) as (evs & E & F).
  destruct (m w) as [[a | e] w1]; simpl in E; subst w1.
  - destruct (Hf a (MkWorld (store w) (log w ++ evs))) as (evs' & E' & F').
    exists (evs ++ evs'). rewrite E'. simpl. rewrite app_assoc.
    split; [reflexivity | now apply Forall_app].
  - now exists evs.
Qed.

Lemma lists_nothing_dir_exists d : lists_nothing (dir_exists d).
Proof.
  intro w. exists [EvDirExists d].
  split; [reflexivity | now repeat constructor].
Qed.

Create HintDb listing.

#[local] Hint Resolve lists_nothing_ret lists_nothing_raise
  lists_nothing_dir_exists : listing.

Section NoListing.

Variable nested_exists : target -> list string -> M bool.

Lemma lists_nothing_slot_present basenames ts :
  Forall (fun t => forall b, lists_nothing (nested_exists t b)) ts ->
  lists_nothing (slot_present nested_exists basenames ts).
Proof.
  induction 1 as [| t r Ht Hr IH]; simpl; [auto with listing |].
  destruct t as [h | h d b | s].
  - apply lists_nothing_bind; [apply Ht |].
    intros []; simpl; auto with listing.
  - destruct (negb (basename_in b basenames)); auto with listing.
  - apply lists_nothing_bind; [apply Ht |].
    intros []; simpl; auto with listing.
Qed.

Lemma lists_nothing_exists_loop basenames threshold len slots :
  Forall (Forall (fun t => forall b, lists_nothing (nested_exists t b)))
    slots ->
  forall i n,
    lists_nothing
      (sibling_exists_loop nested_exists basenames (fun x => x)
         threshold len i n slots).
Proof.
  induction 1 as [| l rest Hl Hrest IH]; simpl; intros i n;
    [auto with listing |].
  apply lists_nothing_bind; [now apply lists_nothing_slot_present |].
  intro b.
  destruct (Qle_bool _ _); [auto with listing |].
  destruct (Qlt_bool _ _); [auto with listing |].
  apply IH.
Qed.

(** The events of one call of [exists]: the directory probe, then the
    listing when [basenames] is not given and the scan is reached, then
    events that are no listings. *)
Lemma sibling_exists_listing (s : sibling_file_collection) basenames :
  Forall (Forall (fun t => forall b, lists_nothing (nested_exists t b)))
    (TargetCollection._iter_flat (base s)) ->
  forall w, exists evs,
    Forall (fun e => is_listing e = false) evs /\
    (snd (sibling_exists nested_exists s basenames w) =
       MkWorld (store w) (log w ++ EvDirExists (dir s) :: evs) \/
     basenames = None /\
     snd (sibling_exists nested_exists s basenames w) =
       MkWorld (store w)
         (log w ++ EvDirExists (dir s) :: EvListdir (dir s) :: evs)).
Proof.
  intros H w.
  destruct (sibling_exists nested_exists s basenames w) as [r w'] eqn:R.
  rewrite sibling_exists_iter_flat in R. cbv zeta in R.
  unfold bind at 1 in R. rewrite dir_exists_run in R. cbn [snd].
  destruct (st_dir_exists (store w) (dir s)) as [d | e].
  2:{ inversion R. exists []. split; [constructor | now left]. }
  destruct (negb d).
  { inversion R. exists []. split; [constructor | now left]. }
  destruct (Qeq_bool _ _).
  { inversion R. exists []. split; [constructor | now left]. }
  destruct basenames as [bn |].
  - unfold bind in R. simpl in R.
    destruct (lists_nothing_exists_loop bn
                (TargetCollection._abs_threshold (base s))
                (TargetCollection.__len__ (base s)) H 0 0
                (MkWorld (store w) (log w ++ [EvDirExists (dir s)])))
      as (evs & E & F).
    rewrite R in E. simpl in E. subst w'.
    exists evs. split; [exact F |]. left. simpl.
    now rewrite <- app_assoc.
  - unfold bind in R. rewrite dir_listdir_run in R. simpl in R.
    destruct (st_listdir (store w) (dir s)) as [bn | e].
    2:{ inversion R. exists []. split; [constructor |]. right.
        split; [reflexivity |]. now rewrite <- app_assoc. }
    destruct (lists_nothing_exists_loop bn
                (TargetCollection._abs_threshold (base s))
                (TargetCollection.__len__ (base s)) H 0 0
                (MkWorld (store w)
                   ((log w ++ [EvDirExists (dir s)])
                    ++ [EvListdir (dir s)])))
      as (evs & E & F).
    rewrite R in E. simpl in E. subst w'.
    exists evs. split; [exact F |]. right. split; [reflexivity |].
    simpl. now rewrite <- !app_assoc.
Qed.

End NoListing.

Lemma lists_nothing_nested_exists :
  forall t b, lists_nothing (target_exists t (Some b)).
Proof.
  induction t as [h | h d b' | s IH _] using target_nested_ind; intro b.
  - apply lists_nothing_raise.
  - apply lists_nothing_raise.
  - intro w. simpl.
    destruct (sibling_exists_listing
                (fun t' b0 => target_exists t' (Some b0)) s (Some b) IH w)
      as (evs & F & [E | [N _]]); [| discriminate].
    exists (EvDirExists (dir s) :: evs). split; [exact E |].
    constructor; [reflexivity | exact F].
Qed.

Lemma lists_nothing_nested_targets (l : list target) :
  Forall (fun t => forall b, lists_nothing (target_exists t (Some b))) l.
Proof. apply Forall_forall. intros t _. apply lists_nothing_nested_exists. Qed.

Lemma lists_nothing_count_loop basenames slots :
  forall n ks, lists_nothing (sibling_count_loop basenames n ks slots).
Proof.
  induction slots as [| [k ts] rest IH]; simpl; intros n ks;
    [auto with listing |].
  apply lists_nothing_bind;
    [apply lists_nothing_slot_present, lists_nothing_nested_targets |].
  intros []; apply IH.
Qed.

(** X19.  One call of [SiblingFileCollection.exists] or [count] lists at
    most one directory, its own, right after the directory probe, and only
    when no [basenames] are handed in; with [basenames] given, neither the
    collection nor any collection nested in it lists a directory. *)
Theorem sibling_lists_at_most_once (s : sibling_file_collection)
  (w : world) :
  (forall basenames, exists evs,
     Forall (fun e => is_listing e = false) evs /\
     (trace (SiblingFileCollection.exists_ s basenames) w =
        log w ++ EvDirExists (dir s) :: evs \/
      basenames = None /\
      trace (SiblingFileCollection.exists_ s basenames) w =
        log w ++ EvDirExists (dir s) :: EvListdir (dir s) :: evs)) /\
  (forall existing keys_ basenames, exists evs,
     Forall (fun e => is_listing e = false) evs /\
     (trace (SiblingFileCollection.count s existing keys_ basenames) w =
        log w ++ EvDirExists (dir s) :: evs \/
      basenames = None /\
      trace (SiblingFileCollection.count s existing keys_ basenames) w =
        log w ++ EvDirExists (dir s) :: EvListdir (dir s) :: evs)).
Proof.
  split.
  - intro basenames. unfold trace, SiblingFileCollection.exists_. simpl.
    destruct (sibling_exists_listing
                (fun t' b0 => target_exists t' (Some b0)) s basenames
                (proj2 (Forall_forall _ _)
                   (fun l _ => lists_nothing_nested_targets l)) w)
      as (evs & F & [E | [N E]]); exists evs; (split; [exact F |]).
    + left. now rewrite E.
    + right. split; [exact N | now rewrite E].
  - intros existing keys_ basenames. unfold trace.
    destruct (SiblingFileCollection.count s existing keys_ basenames w)
      as [r w'] eqn:R.
    unfold SiblingFileCollection.count in R.
    unfold bind at 1 in R. rewrite dir_exists_run in R. cbn [snd].
    destruct (st_dir_exists (store w) (dir s)) as [d | e].
    2:{ inversion R. exists []. split; [constructor | now left]. }
    destruct d; simpl in R.
    2:{ exists []. split; [constructor |]. left.
        destruct existing; inversion R; reflexivity. }
    assert (L : forall bn, lists_nothing
              (r <- sibling_count_loop bn 0 []
                      (TargetCollection._iter_flat_keys (base s)) ;;
               ret (TargetCollection.count_report (base s) existing keys_
                      (fst r) (snd r)))).
    { intro bn. apply lists_nothing_bind;
        [apply lists_nothing_count_loop | auto with listing]. }
    destruct basenames as [bn |].
    + unfold bind at 1 in R. simpl in R.
      destruct (L bn (MkWorld (store w) (log w ++ [EvDirExists (dir s)])))
        as (evs & E & F).
      rewrite R in E. simpl in E. subst w'.
      exists evs. split; [exact F |]. left. simpl.
      now rewrite <- app_assoc.
    + unfold bind at 1 in R. rewrite dir_listdir_run in R. simpl in R.
      destruct (st_listdir (store w) (dir s)) as [bn | e].
      2:{ inversion R. exists []. split; [constructor |]. right.
          split; [reflexivity |]. now rewrite <- app_assoc. }
      destruct (L bn (MkWorld (store w)
                        ((log w ++ [EvDirExists (dir s)])
                         ++ [EvListdir (dir s)])))
        as (evs & E & F).
      rewrite R in E. simpl in E. subst w'.
      exists evs. split; [exact F |]. right. split; [reflexivity |].
      simpl. now rewrite <- !app_assoc.
Qed.

(** ** The listing may be handed in *)

Lemma steady_ret {A : Type} (a : A) : steady (ret a).
Proof. intros w w' H. now split. Qed.

Lemma steady_raise {A : Type} (e : exn) : steady (@raise A e).
Proof. intros w w' H. now split. Qed.

Lemma steady_bind {A B : Type} (m : M A) (f : A -> M B) :
  steady m -> (forall a, steady (f a)) -> steady (bind m f).
Proof.
  intros Hm Hf w w' H. unfold bind.
  destruct (Hm w w' H) as [R S].
  destruct (m w) as [r w1], (m w') as [r' w1']. simpl in R, S. subst r'.
  destruct r as [a | e]; [now apply Hf | now split].
Qed.

Lemma steady_dir_exists d : steady (dir_exists d).
Proof.
  intros w w' H. rewrite !dir_exists_run. simpl. now rewrite H.
Qed.

Lemma steady_dir_listdir d : steady (dir_listdir d).
Proof.
  intros w w' H. rewrite !dir_listdir_run. simpl. now rewrite H.
Qed.

Lemma steady_handle_exists h : steady (handle_exists h).
Proof.
  intros w w' H. rewrite !handle_exists_run. simpl. now rewrite H.
Qed.

Create HintDb steady.

#[local] Hint Resolve steady_ret steady_raise steady_dir_exists
  steady_dir_listdir steady_handle_exists : steady.

Section SteadyScan.

Variable nested_exists : target -> list string -> M bool.

Lemma steady_slot_present basenames ts :
  Forall (fun t => forall b, steady (nested_exists t b)) ts ->
  steady (slot_present nested_exists basenames ts).
Proof.
  induction 1 as [| t r Ht Hr IH]; simpl; [auto with steady |].
  destruct t as [h | h d b | s].
  - apply steady_bind; [apply Ht |].
    intros []; simpl; auto with steady.
  - destruct (negb (basename_in b basenames)); auto with steady.
  - apply steady_bind; [apply Ht |].
    intros []; simpl; auto with steady.
Qed.

Lemma steady_exists_loop basenames threshold len slots :
  Forall (Forall (fun t => forall b, steady (nested_exists t b))) slots ->
  forall i n,
    steady
      (sibling_exists_loop nested_exists basenames (fun x => x)
         threshold len i n slots).
Proof.
  induction 1 as [| l rest Hl Hrest IH]; simpl; intros i n;
    [auto with steady |].
  apply steady_bind; [now apply steady_slot_present |].
  intro b.
  destruct (Qle_bool _ _); [auto with steady |].
  destruct (Qlt_bool _ _); [auto with steady |].
  apply IH.
Qed.

Lemma steady_sibling_exists (s : sibling_file_collection) basenames :
  Forall (Forall (fun t => forall b, steady (nested_exists t b)))
    (TargetCollection._iter_flat (base s)) ->
  steady (sibling_exists nested_exists s basenames).
Proof.
  intros H w w' Hw. rewrite !sibling_exists_iter_flat. revert w w' Hw.
  change (steady
    (let threshold := TargetCollection._abs_threshold (base s) in
     d <- dir_exists (dir s) ;;
     if negb d then ret false
     else if Qeq_bool threshold 0 then ret true
     else
       bn <- match basenames with
             | None => dir_listdir (dir s)
             | Some b => ret b
             end ;;
       sibling_exists_loop nested_exists bn (fun x => x) threshold
         (TargetCollection.__len__ (base s)) 0 0
         (TargetCollection._iter_flat (base s)))).
  cbv zeta. apply steady_bind; [auto with steady |].
  intro d. destruct (negb d); [auto with steady |].
  destruct (Qeq_bool _ _); [auto with steady |].
  apply steady_bind; [destruct basenames; auto with steady |].
  intro bn. now apply steady_exists_loop.
Qed.

End SteadyScan.

Lemma steady_target_exists :
  forall t basenames, steady (target_exists t basenames).
Proof.
  induction t as [h | h d b' | s IH _] using target_nested_ind;
    intro basenames.
  - destruct basenames; simpl; auto with steady.
  - destruct basenames; simpl; auto with steady.
  - simpl. apply steady_sibling_exists.
    eapply Forall_impl; [| exact IH].
    intros l Hl. eapply Forall_impl; [| exact Hl].
    intros t Ht b. apply Ht.
Qed.

Lemma steady_nested_targets (l : list target) :
  Forall (fun t => forall b, steady (target_exists t (Some b))) l.
Proof. apply Forall_forall. intros t _ b. apply steady_target_exists. Qed.

Lemma steady_count_loop basenames slots :
  forall n ks, steady (sibling_count_loop basenames n ks slots).
Proof.
  induction slots as [| [k ts] rest IH]; simpl; intros n ks;
    [auto with steady |].
  apply steady_bind;
    [apply steady_slot_present, steady_nested_targets |].
  intros []; apply IH.
Qed.

(** X20.  Handing the listing of its directory to
    [SiblingFileCollection.exists] or [count] as [basenames] gives the
    result the call computes when it lists the directory itself. *)
Theorem basenames_may_be_the_listing (s : sibling_file_collection)
  (names : list string) (w : world) :
  st_listdir (store w) (dir s) = Ok names ->
  run (SiblingFileCollection.exists_ s (Some names)) w =
  run (SiblingFileCollection.exists_ s None) w /\
  (forall existing keys_,
     run (SiblingFileCollection.count s existing keys_ (Some names)) w =
     run (SiblingFileCollection.count s existing keys_ None) w).
Proof.
  intro Hl. unfold run. split.
  - unfold SiblingFileCollection.exists_. simpl.
    rewrite !sibling_exists_iter_flat. cbv zeta.
    unfold bind at 1 3. rewrite dir_exists_run.
    destruct (st_dir_exists (store w) (dir s)) as [d | e]; [| reflexivity].
    destruct (negb d); [reflexivity |].
    destruct (Qeq_bool _ _); [reflexivity |].
    unfold bind. rewrite dir_listdir_run. simpl. rewrite Hl.
    apply steady_exists_loop; [| reflexivity].
    apply Forall_forall. intros l _. apply steady_nested_targets.
  - intros existing keys_. unfold SiblingFileCollection.count.
    unfold bind at 1 4. rewrite dir_exists_run.
    destruct (st_dir_exists (store w) (dir s)) as [d | e]; [| reflexivity].
    destruct (negb d); [reflexivity |].
    unfold bind at 1 3. rewrite dir_listdir_run. simpl. rewrite Hl.
    assert (S : steady
              (r <- sibling_count_loop names 0 []
                      (TargetCollection._iter_flat_keys (base s)) ;;
               ret (TargetCollection.count_report (base s) existing keys_
                      (fst r) (snd r)))).
    { apply steady_bind; [apply steady_count_loop | auto with steady]. }
    apply S. reflexivity.
Qed.

Lemma basenames_may_be_the_listing_witness :
  run (SiblingFileCollection.exists_ parent_of_gone (Some ["a.txt"%string]))
    (fresh data_without_gone) =
  run (SiblingFileCollection.exists_ parent_of_gone None)
    (fresh data_without_gone) /\
  (forall existing keys_,
     run (SiblingFileCollection.count parent_of_gone existing keys_
            (Some ["a.txt"%string])) (fresh data_without_gone) =
     run (SiblingFileCollection.count parent_of_gone existing keys_ None)
       (fresh data_without_gone)).
Proof.
  apply (@basenames_may_be_the_listing parent_of_gone ["a.txt"%string]
           (fresh data_without_gone)).
  reflexivity.
Defined.

(** ** [SiblingFileCollection.exists] against its [count] *)

Lemma sibling_count_loop_bounds basenames slots :
  forall m ks w m' ks',
    run (sibling_count_loop basenames m ks slots) w = Ok (m', ks') ->
    m <= m' <= m + Z.of_nat (List.length slots).
Proof.
  unfold run.
  induction slots as [| [k ts] rest IH]; intros m ks w m' ks'; simpl.
  - intro H. inversion H. lia.
  - unfold bind.
    destruct (slot_present _ basenames ts w) as [[b | e] w1];
      [| simpl; discriminate].
    destruct b; intro H; apply IH in H; lia.
Qed.

Lemma sibling_exists_loop_counts basenames threshold len slots :
  forall i n m ks w m' ks',
    len = i + Z.of_nat (List.length slots) ->
    (inject_Z n < threshold)%Q ->
    run (sibling_count_loop basenames m ks slots) w = Ok (m', ks') ->
    run (sibling_exists_loop (fun t b => target_exists t (Some b))
           basenames (fun x => x) threshold len i n (map snd slots)) w =
    Ok (Qle_bool threshold (inject_Z (n + (m' - m)))).
Proof.
  unfold run.
  induction slots as [| [k ts] rest IH]; intros i n m ks w m' ks' Hlen Hn.
  - simpl. intro H. inversion H; subst.
    rewrite Z.sub_diag, Z.add_0_r.
    apply Qle_bool_false_iff in Hn. now rewrite Hn.
  - cbn [sibling_count_loop sibling_exists_loop map snd List.length] in *.
    unfold bind.
    destruct (slot_present (fun t b => target_exists t (Some b)) basenames
                ts w) as [[b | e] w1]; [| simpl; discriminate].
    set (n' := if b then n + 1 else n).
    set (m1 := if b then m + 1 else m).
    intro H.
    assert (C : fst (sibling_count_loop basenames m1
                       (if b then ks ++ [k] else ks) rest w1)
                = Ok (m', ks')).
    { unfold m1. now destruct b. }
    clear H.
    pose proof (@sibling_count_loop_bounds _ _ _ _ _ _ _ C) as B.
    assert (En : n + (m' - m) = n' + (m' - m1)).
    { unfold n', m1. destruct b; lia. }
    rewrite En.
    destruct (Qle_bool threshold (inject_Z n')) eqn:Hit.
    + apply Qle_bool_iff in Hit. simpl. f_equal. symmetry.
      apply Qle_bool_iff. eapply Qle_trans; [exact Hit |].
      rewrite <- Zle_Qle. lia.
    + apply Qle_bool_false_iff in Hit.
      destruct (Qlt_bool (inject_Z (n' + (len - i - 1))) threshold) eqn:Low.
      * apply Qlt_bool_iff in Low. simpl. f_equal. symmetry.
        apply Qle_bool_false_iff.
        eapply Qle_lt_trans; [| exact Low].
        rewrite <- Zle_Qle. lia.
      * apply (IH (i + 1) n' m1 (if b then ks ++ [k] else ks) w1 m' ks');
          trivial. lia.
Qed.

(** X21.  For a constructed [SiblingFileCollection] whose directory
    exists, nested collections included: when [count(existing=True)]
    returns [n], [exists()] called in the same world with the same
    [basenames] returns true exactly if [n] is at least the absolute
    threshold. *)
Theorem sibling_exists_iff_count (arg : init_arg target) (thr : Q)
  (s : sibling_file_collection) (basenames : option (list string))
  (w : world) (n : Z) :
  SiblingFileCollection.__init__ arg thr = Ok s ->
  st_dir_exists (store w) (dir s) = Ok true ->
  run (SiblingFileCollection.count s true false basenames) w
    = Ok (CountN n) ->
  run (SiblingFileCollection.exists_ s basenames) w =
    Ok (Qle_bool (TargetCollection._abs_threshold (base s)) (inject_Z n)).
Proof.
  intros Hinit Hd.
  pose proof (sibling_init_base _ _ Hinit) as Hbase.
  unfold run, SiblingFileCollection.count, SiblingFileCollection.exists_.
  simpl. rewrite sibling_exists_iter_flat. cbv zeta.
  erewrite !bind_ok by (apply dir_exists_as; exact Hd). simpl.
  set (w1 := MkWorld (store w) (log w ++ [EvDirExists (dir s)])).
  unfold bind at 1.
  destruct (match basenames with
            | None => dir_listdir (dir s)
            | Some b => ret b
            end w1) as [[bn | e] w2] eqn:Ebn; [| simpl; discriminate].
  unfold bind at 1.
  destruct (sibling_count_loop bn 0 []
              (TargetCollection._iter_flat_keys (base s)) w2)
    as [[[m' ks'] | e] w3] eqn:C; simpl; [| discriminate].
  intro H. injection H as <-.
  assert (C' : run (sibling_count_loop bn 0 []
                      (TargetCollection._iter_flat_keys (base s))) w2
               = Ok (m', ks')).
  { unfold run. now rewrite C. }
  pose proof (@sibling_count_loop_bounds _ _ _ _ _ _ _ C') as B.
  destruct (Qeq_bool (TargetCollection._abs_threshold (base s)) 0) eqn:Z0.
  - simpl. f_equal. symmetry. apply Qle_bool_iff.
    apply Qeq_bool_iff in Z0. rewrite Z0. change 0%Q with (inject_Z 0).
    rewrite <- Zle_Qle. lia.
  - unfold bind. rewrite Ebn.
    rewrite <- iter_flat_keys_snd.
    pose proof (@sibling_exists_loop_counts bn
                  (TargetCollection._abs_threshold (base s))
                  (TargetCollection.__len__ (base s))
                  (TargetCollection._iter_flat_keys (base s))
                  0 0 0 [] w2 m' ks') as L.
    unfold run in L. rewrite L; trivial.
    + simpl. now rewrite Z.sub_0_r.
    + rewrite (init_len _ _ Hbase), <- iter_flat_keys_snd, length_map. lia.
    + destruct (Qlt_le_dec 0 (TargetCollection._abs_threshold (base s)))
        as [P | N]; [exact P |].
      exfalso. apply Qeq_bool_neq in Z0. apply Z0.
      apply Qle_antisym; [exact N | apply abs_threshold_nonneg].
Qed.

Lemma sibling_exists_iff_count_witness :
  run (SiblingFileCollection.exists_ parent_of_gone None)
    (fresh data_without_gone) =
  Ok (Qle_bool (TargetCollection._abs_threshold (base parent_of_gone))
        (inject_Z 1)).
Proof.
  apply (@sibling_exists_iff_count
           (FromObject (PSeq KindList (map PTarget parent_targets))) 1
           parent_of_gone None (fresh data_without_gone) 1);
    reflexivity.
Defined.

(** ** A random slot *)

Lemma choice_is_member {A : Type} (randbelow : Z -> Z) (xs : list A) :
  (forall n, 0 < n -> 0 <= randbelow n < n) ->
  match xs with
  | [] => choice randbelow xs = Fails LookupIndexError
  | _ :: _ => exists x, choice randbelow xs = Got x /\ In x xs
  end.
Proof.
  intro Hr. destruct xs as [| y r]; [reflexivity |].
  unfold choice.
  set (xs := y :: r).
  assert (P : 0 < Z.of_nat (List.length xs)) by (simpl; lia).
  specialize (Hr _ P).
  set (j := randbelow (Z.of_nat (List.length xs))) in *.
  destruct (nth_error xs (Z.to_nat j)) as [x |] eqn:E.
  - exists x. split; [| now apply nth_error_In in E].
    rewrite <- (Z2Nat.id j) by lia. now apply seq_item_nth.
  - apply nth_error_None in E. lia.
Qed.

(** X22.  With a generator that draws below the length it is given,
    [random_target()] returns one of the raw items of [self.targets], as
    they were passed in and not flattened; on a collection without slots
    it raises [IndexError]. *)
Theorem random_target_is_raw_item (T : Type) (randbelow : Z -> Z)
  (c : target_collection T) :
  (forall n, 0 < n -> 0 <= randbelow n < n) ->
  (TargetCollection.__len__ c = 0 ->
   random_target randbelow c = Fails LookupIndexError) /\
  (0 < TargetCollection.__len__ c ->
   exists item,
     random_target randbelow c = Got item /\ In item (raw_items c)).
Proof.
  intro Hr. unfold random_target, raw_items, TargetCollection.__len__.
  destruct (targets c) as [k xs | kvs].
  - pose proof (@choice_is_member _ randbelow xs Hr) as H.
    destruct xs; simpl; split; intro L; try lia; assumption.
  - pose proof (@choice_is_member _ randbelow (map snd kvs) Hr) as H.
    destruct kvs; simpl in *; split; intro L; try lia; assumption.
Qed.

Lemma random_target_is_raw_item_witness :
  random_target (fun n => n - 1) empty_collection
    = Fails LookupIndexError /\
  exists item,
    random_target (fun n => n - 1) (five 1) = Got item /\
    In item (raw_items (five 1)).
Proof.
  assert (R : forall n, 0 < n -> 0 <= n - 1 < n) by (intros; lia).
  split.
  - apply (proj1 (@random_target_is_raw_item target (fun n => n - 1)
                    empty_collection R)). reflexivity.
  - apply (proj2 (@random_target_is_raw_item target (fun n => n - 1)
                    (five 1) R)). reflexivity.
Defined.
